(** * whenr-database: derived search columns, their triggers, migrations and
    the event-search query fragments

    The repository's engineering content is SQL: two migrations that add a
    full-text [search_vector] column to [wc_events] and [wc_venues] and a
    PostGIS [location] column to [wc_venues], the plpgsql trigger functions
    that keep those columns in step with their source columns, a third
    migration that only creates indexes, and (in POSTGIS_SETUP.md and in a
    comment of the index migration) the fragments of the event-search query.

    The development embeds that code shallowly:
    - a nullable SQL value is an [option]; a truth value is an [option bool]
      under SQL's three-valued logic;
    - [double precision] and [numeric] values are the rationals they denote
      (NaN and the infinities are left out);
    - a plpgsql function run by a row trigger is a function from the row
      [NEW] to a [result] (the row it returns, or the error it raises);
    - a migration statement is a [database -> result database]; a script
      is run statement by statement, a failed statement leaving the
      database as it was ([run]), or as one query that takes effect as a
      whole or not at all ([run_as_one_query]);
    - the TypeScript query-building snippets are functions on the builder
      state [sqlQuery], [queryParams], [paramIndex];
    - a query the migrations or the guide run by hand is a function from
      the database to its answer, the rows or the error it fails with;
    - index.js and the two Node.js scripts are computations that list
      their effects (console lines, commands handed to the shell) and end
      normally, by a throw, or by [process.exit].

    PostgreSQL and PostGIS built-ins whose algorithms are not part of the
    repository (the ['english'] text-search configuration, [to_tsquery],
    [ST_Distance], the size check of a tsvector) are parameters of the
    development. The code that builds the WHERE clause of the search is
    under src/ for the geographic filter only; the other three filters and
    the order of the four are modelled from the spec. *)

From Stdlib Require Import QArith Qabs ZArith NArith Ascii String DecimalString
  List Sorting.Sorted.
From stdpp Require Import base option list strings gmap sorting.

Local Open Scope string_scope.
Local Open Scope list_scope.

(* stdpp's [set_solver] clears hypotheses that are sometimes not there. *)
#[local] Set Warnings "-clear-no-such-hyp".

(* ===================================================================== *)
(** * SQL values *)
(* ===================================================================== *)

Module Sql.

(** [COALESCE(x, d)] with two arguments. *)
Definition COALESCE {T : Type} (x : option T) (d : T) : T :=
  match x with
  | Some v => v
  | None => d
  end.

(** [x IS NOT NULL] and [x IS NULL] are never NULL themselves. *)
Definition IS_NOT_NULL {T : Type} (x : option T) : bool :=
  match x with
  | Some _ => true
  | None => false
  end.

Definition IS_NULL {T : Type} (x : option T) : bool := negb (IS_NOT_NULL x).

(** A truth value: TRUE, FALSE or NULL (unknown). *)
Definition truth : Type := option bool.

Definition TRUE : truth := Some true.
Definition FALSE : truth := Some false.
Definition UNKNOWN : truth := None.

(** [a AND b]: FALSE wins over NULL. *)
Definition AND (a b : truth) : truth :=
  match a, b with
  | Some false, _ => Some false
  | _, Some false => Some false
  | Some true, Some true => Some true
  | _, _ => None
  end.

(** [a OR b]: TRUE wins over NULL. *)
Definition OR (a b : truth) : truth :=
  match a, b with
  | Some true, _ => Some true
  | _, Some true => Some true
  | Some false, Some false => Some false
  | _, _ => None
  end.

(** A comparison or a strict function is NULL as soon as an operand is. *)
Definition strict2 {X Y R : Type} (f : X -> Y -> R) (x : option X) (y : option Y)
  : option R :=
  match x, y with
  | Some a, Some b => Some (f a b)
  | _, _ => None
  end.

(** [a >= b] and [a <= b] on numbers. *)
Definition GE (a b : option Q) : truth := strict2 (fun x y => Qle_bool y x) a b.
Definition LE (a b : option Q) : truth := strict2 Qle_bool a b.

(** A WHERE clause keeps a row only when its condition is TRUE. *)
Definition holds (t : truth) : bool :=
  match t with
  | Some true => true
  | _ => false
  end.

End Sql.

(* ===================================================================== *)
(** * Errors and results *)
(* ===================================================================== *)

(** What a statement or a plpgsql block can raise. *)
Inductive pg_error : Type :=
| raise_exception (message : string)   (* RAISE EXCEPTION '...' *)
| syntax_error (near : string)         (* a word the SQL parser refuses *)
| duplicate_object (name : string)     (* CREATE of a name in use *)
| undefined_object (name : string)     (* COMMENT ON / ... of a missing object *)
| dependent_objects (name : string)    (* DROP of an object still in use *)
| program_limit_exceeded (message : string). (* a value too large for its type *)

Inductive result (T : Type) : Type :=
| Ok (v : T)
| Err (e : pg_error).

Arguments Ok {T} v.
Arguments Err {T} e.

#[global] Instance result_ret : MRet result := fun _ v => Ok v.
#[global] Instance result_bind : MBind result :=
  fun _ _ f r => match r with Ok v => f v | Err e => Err e end.

(* ===================================================================== *)
(** * Full-text search values *)
(* ===================================================================== *)

(** The four labels a tsvector position can carry. *)
Module Weight.

Inductive t : Type := A | B | C | D.

#[global] Instance eq_dec : EqDecision t.
Proof. solve_decision. Defined.

(** The factor [ts_rank] gives a label by default: {0.1, 0.2, 0.4, 1.0}
    for D, C, B, A. *)
Definition rank (w : t) : Q :=
  match w with
  | A => 1
  | B => 4 # 10
  | C => 2 # 10
  | D => 1 # 10
  end.

(** [w1] weighs strictly more than [w2]. *)
Definition heavier (w1 w2 : t) : bool :=
  negb (Qle_bool (rank w1) (rank w2)).

End Weight.

(** One occurrence of a lexeme in a document. *)
Record entry : Type := Entry {
  lexeme : string;
  position : nat;
  weight : Weight.t
}.

(** A tsvector: the weighted occurrences of the document's lexemes. *)
Definition tsvector : Type := list entry.

(** [setweight(v, w)] labels every occurrence of [v] with [w]. *)
Definition setweight (v : tsvector) (w : Weight.t) : tsvector :=
  map (fun e => Entry (lexeme e) (position e) w) v.

Definition max_position (v : tsvector) : nat :=
  fold_right (fun e m => Nat.max (position e) m) 0%nat v.

(** [v1 || v2]: the occurrences of both, those of [v2] moved past the last
    position of [v1]. *)
Definition tsvector_concat (v1 v2 : tsvector) : tsvector :=
  v1 ++ map (fun e => Entry (lexeme e) (max_position v1 + position e) (weight e)) v2.

(** A tsquery over lexemes. *)
Inductive tsquery : Type :=
| q_lexeme (l : string)
| q_and (a b : tsquery)
| q_or (a b : tsquery)
| q_not (a : tsquery).

Definition has_lexeme (l : string) (v : tsvector) : bool :=
  existsb (fun e => String.eqb (lexeme e) l) v.

(** [v @@ q] for a non-null vector. *)
Fixpoint ts_match (v : tsvector) (q : tsquery) : bool :=
  match q with
  | q_lexeme l => has_lexeme l v
  | q_and a b => ts_match v a && ts_match v b
  | q_or a b => ts_match v a || ts_match v b
  | q_not a => negb (ts_match v a)
  end.

(* ===================================================================== *)
(** * PostGIS values *)
(* ===================================================================== *)

(** A point geometry: its spatial reference and its two ordinates. *)
Record geometry : Type := Geometry {
  g_srid : Z;
  g_x : Q;
  g_y : Q
}.

(** [ST_MakePoint(x, y)]: a point with no spatial reference yet. *)
Definition ST_MakePoint (x y : Q) : geometry := Geometry 0 x y.

(** [ST_SetSRID(g, srid)]. *)
Definition ST_SetSRID (g : geometry) (srid : Z) : geometry :=
  Geometry srid (g_x g) (g_y g).

(** [g::geography]. The cast accepts a point of SRID 4326 whatever its
    ordinates (PostGIS brings ordinates outside the WGS84 ranges back into
    range and reports a NOTICE, not an error). The value is kept as the
    geometry it was cast from; what PostGIS makes of it is observed
    through [ST_Distance] only. *)
Inductive geography : Type :=
| geography_of (g : geometry).

(** The expression both the backfill and the trigger assign:
    [ST_SetSRID(ST_MakePoint(lon::numeric, lat::numeric), 4326)::geography]. *)
Definition point_4326 (lon lat : Q) : geography :=
  geography_of (ST_SetSRID (ST_MakePoint lon lat) 4326).

(* ===================================================================== *)
(** * Rows *)
(* ===================================================================== *)

(** The name of a column if the SET list assigns it. *)
Definition target {S T : Type} (f : S -> option T) (s : S) (column : string)
  : list string :=
  match f s with
  | Some _ => [column]
  | None => []
  end.

(** A row of [public.wc_venues]: the columns the migrations and the query
    name, and [rest] for every other column of the table. *)
Module Venue.

Record row : Type := Row {
  id : string;
  name : option string;
  lat : option Q;
  lon : option Q;
  location : option geography;
  search_vector : option tsvector;
  rest : gmap string (option string)
}.

(** [NEW.location := l]. *)
Definition with_location (l : option geography) (r : row) : row :=
  Row (id r) (name r) (lat r) (lon r) l (search_vector r) (rest r).

(** [NEW.search_vector := v]. *)
Definition with_search_vector (v : option tsvector) (r : row) : row :=
  Row (id r) (name r) (lat r) (lon r) (location r) v (rest r).

(** The SET list of an UPDATE: for each column, the value assigned to it
    if the list names it. [set_rest] holds the other columns it names. *)
Record assignments : Type := Assign {
  set_name : option (option string);
  set_lat : option (option Q);
  set_lon : option (option Q);
  set_location : option (option geography);
  set_search_vector : option (option tsvector);
  set_rest : gmap string (option string)
}.

(** The columns the SET list names, among those a trigger watches or
    writes. *)
Definition targets (s : assignments) : list string :=
  target set_name s "name" ++
  target set_lat s "lat" ++
  target set_lon s "lon" ++
  target set_location s "location" ++
  target set_search_vector s "search_vector".

(** The row an UPDATE proposes: the old row with the SET list applied. *)
Definition apply (s : assignments) (old : row) : row :=
  Row (id old)
      (Sql.COALESCE (set_name s) (name old))
      (Sql.COALESCE (set_lat s) (lat old))
      (Sql.COALESCE (set_lon s) (lon old))
      (Sql.COALESCE (set_location s) (location old))
      (Sql.COALESCE (set_search_vector s) (search_vector old))
      (set_rest s ∪ rest old).

(** Two rows agree on every column but [location]. *)
Definition same_but_location (r r' : row) : Prop :=
  id r' = id r /\ name r' = name r /\ lat r' = lat r /\ lon r' = lon r /\
  search_vector r' = search_vector r /\ rest r' = rest r.

(** Two rows agree on every column but [search_vector]. *)
Definition same_but_search_vector (r r' : row) : Prop :=
  id r' = id r /\ name r' = name r /\ lat r' = lat r /\ lon r' = lon r /\
  location r' = location r /\ rest r' = rest r.

End Venue.

(** A row of [public.wc_events]. *)
Module Event.

Record row : Type := Row {
  id : string;
  title : option string;
  description : option string;
  start_at : option Z;
  venue_id : option string;
  search_vector : option tsvector;
  rest : gmap string (option string)
}.

(** [NEW.search_vector := v]. *)
Definition with_search_vector (v : option tsvector) (r : row) : row :=
  Row (id r) (title r) (description r) (start_at r) (venue_id r) v (rest r).

Record assignments : Type := Assign {
  set_title : option (option string);
  set_description : option (option string);
  set_start_at : option (option Z);
  set_venue_id : option (option string);
  set_search_vector : option (option tsvector);
  set_rest : gmap string (option string)
}.

Definition targets (s : assignments) : list string :=
  target set_title s "title" ++
  target set_description s "description" ++
  target set_start_at s "start_at" ++
  target set_venue_id s "venue_id" ++
  target set_search_vector s "search_vector".

Definition apply (s : assignments) (old : row) : row :=
  Row (id old)
      (Sql.COALESCE (set_title s) (title old))
      (Sql.COALESCE (set_description s) (description old))
      (Sql.COALESCE (set_start_at s) (start_at old))
      (Sql.COALESCE (set_venue_id s) (venue_id old))
      (Sql.COALESCE (set_search_vector s) (search_vector old))
      (set_rest s ∪ rest old).

(** Two rows agree on every column but [search_vector]. *)
Definition same_but_search_vector (r r' : row) : Prop :=
  id r' = id r /\ title r' = title r /\ description r' = description r /\
  start_at r' = start_at r /\ venue_id r' = venue_id r /\ rest r' = rest r.

End Event.

(* ===================================================================== *)
(** * Row triggers as catalog entries *)
(* ===================================================================== *)

(** [CREATE TRIGGER ... BEFORE (INSERT OR)? UPDATE OF cols ON table
    FOR EACH ROW EXECUTE FUNCTION f()]. *)
Record trigger : Type := Trigger {
  tg_table : string;
  tg_insert : bool;
  tg_update_of : list string;
  tg_function : string
}.

(** The write a row trigger is asked about. *)
Inductive tg_op : Type :=
| INSERT
| UPDATE (targets : list string).

(** A column-specific trigger fires on an UPDATE when one of its columns
    is a target of the SET list, whether or not the value changes. *)
Definition fires (tg : trigger) (op : tg_op) : bool :=
  match op with
  | INSERT => tg_insert tg
  | UPDATE targets =>
      existsb (fun c => existsb (String.eqb c) targets) (tg_update_of tg)
  end.

Definition trigger_update_venue_location : trigger :=
  Trigger "public.wc_venues" true ["lat"; "lon"] "update_venue_location".

Definition trigger_update_event_search_vector : trigger :=
  Trigger "public.wc_events" true ["title"; "description"]
          "update_event_search_vector".

Definition trigger_update_venue_search_vector : trigger :=
  Trigger "public.wc_venues" true ["name"] "update_venue_search_vector".

(** Runs [f] on [NEW] when the trigger fires, and passes [NEW] on
    otherwise. *)
Definition before_row {R : Type} (tg : trigger) (f : R -> result R)
    (op : tg_op) (NEW : R) : result R :=
  if fires tg op then f NEW else Ok NEW.

(* ===================================================================== *)
(** * Built-ins taken as parameters, and stand-ins to compute with *)
(* ===================================================================== *)

(** A text-search configuration such as ['english']: how a document
    becomes positioned lexemes, and how a query text becomes a tsquery. *)
Record ts_config : Type := TsConfig {
  parse_document : string -> list (string * nat);
  parse_query : string -> tsquery
}.

(** [to_tsvector(cfg, doc)]: every occurrence carries the default label D. *)
Definition to_tsvector (cfg : ts_config) (doc : string) : tsvector :=
  map (fun lp => Entry (fst lp) (snd lp) Weight.D) (parse_document cfg doc).

(** [to_tsquery(cfg, q)]. *)
Definition to_tsquery (cfg : ts_config) (q : string) : tsquery :=
  parse_query cfg q.

(** Stand-ins for the parameters, used to evaluate the code on concrete
    rows: a configuration that splits a document at spaces and reads a
    query as one lexeme, and a distance that adds the differences of the
    ordinates. *)
Module Sample.

Definition is_space (c : Ascii.ascii) : bool := Ascii.eqb c " "%char.

Fixpoint words_from (cur : string) (s : string) : list string :=
  match s with
  | EmptyString => if String.eqb cur "" then [] else [cur]
  | String c s' =>
      if is_space c then
        if String.eqb cur "" then words_from "" s'
        else cur :: words_from "" s'
      else words_from (cur +:+ String c EmptyString) s'
  end.

Definition words (s : string) : list string := words_from "" s.

Definition english : ts_config :=
  TsConfig (fun doc => combine (words doc) (seq 1 (length (words doc))))
           q_lexeme.

Definition ST_Distance (a b : geography) : Q :=
  match a, b with
  | geography_of p, geography_of c =>
      (Qabs (g_x p - g_x c) + Qabs (g_y p - g_y c))%Q
  end.

(** The bytes the lexemes of a vector take, one lexeme for each
    occurrence. PostgreSQL stores a lexeme once and adds two bytes for each
    of its positions, so on a document whose words are all different it
    counts no less than this. *)
Definition bytes (v : tsvector) : N :=
  fold_left (fun n e => (n + N.of_nat (String.length (lexeme e)))%N) v 0%N.

(** A stand-in for the size check of a tsvector: its lexemes take at most
    the 1048575 bytes (1 MB less one) PostgreSQL has room for. *)
Definition fits (v : tsvector) : bool := (bytes v <=? 1048575)%N.

End Sample.

(* ===================================================================== *)
(** * The trigger functions *)
(* ===================================================================== *)

(** [update_venue_location()]:
<<
  IF NEW.lat IS NOT NULL AND NEW.lon IS NOT NULL THEN
    NEW.location := ST_SetSRID(
      ST_MakePoint(NEW.lon::numeric, NEW.lat::numeric), 4326)::geography;
  ELSE
    NEW.location := NULL;
  END IF;
  RETURN NEW;
>> *)
Definition update_venue_location (NEW : Venue.row) : result Venue.row :=
  let NEW :=
    if Sql.IS_NOT_NULL (Venue.lat NEW) && Sql.IS_NOT_NULL (Venue.lon NEW) then
      Venue.with_location
        (Sql.strict2 point_4326 (Venue.lon NEW) (Venue.lat NEW)) NEW
    else
      Venue.with_location None NEW in
  Ok NEW.

(** The range the specification wants coordinates checked against; the
    code has no counterpart of it. *)
Definition in_range (lat lon : Q) : bool :=
  Qle_bool (-90) lat && Qle_bool lat 90 &&
  Qle_bool (-180) lon && Qle_bool lon 180.

(** What step 2 of the PostGIS migration, the backfill
    [UPDATE ... SET location = ... WHERE lat IS NOT NULL AND lon IS NOT NULL
    AND location IS NULL], makes of one venue row. *)
Definition backfilled_location (r : Venue.row) : Venue.row :=
  if Sql.IS_NOT_NULL (Venue.lat r) && Sql.IS_NOT_NULL (Venue.lon r)
     && Sql.IS_NULL (Venue.location r)
  then Venue.with_location (Sql.strict2 point_4326 (Venue.lon r) (Venue.lat r)) r
  else r.

(** A row that was in the table when the PostGIS migration added the
    [location] column: the new column is NULL, then backfilled. *)
Definition migrated (r : Venue.row) : Venue.row :=
  backfilled_location (Venue.with_location None r).

(** What the location column must hold given the two coordinates. *)
Definition derived_location (v : Venue.row) : option geography :=
  Sql.strict2 point_4326 (Venue.lon v) (Venue.lat v).

Section Triggers.

Variable english : ts_config.

(** The value both the backfill and the trigger give [wc_events.search_vector]:
<<
  setweight(to_tsvector('english', COALESCE(title, '')), 'A') ||
  setweight(to_tsvector('english', COALESCE(description, '')), 'B')
>> *)
Definition event_search_vector (title description : option string) : tsvector :=
  tsvector_concat
    (setweight (to_tsvector english (Sql.COALESCE title "")) Weight.A)
    (setweight (to_tsvector english (Sql.COALESCE description "")) Weight.B).

(** The value both the backfill and the trigger give [wc_venues.search_vector]:
    [to_tsvector('english', COALESCE(name, ''))]. *)
Definition venue_search_vector (name : option string) : tsvector :=
  to_tsvector english (Sql.COALESCE name "").

(** [update_event_search_vector()]: assigns [NEW.search_vector], returns [NEW]. *)
Definition update_event_search_vector (NEW : Event.row) : result Event.row :=
  let NEW :=
    Event.with_search_vector
      (Some (event_search_vector (Event.title NEW) (Event.description NEW)))
      NEW in
  Ok NEW.

(** [update_venue_search_vector()]: assigns [NEW.search_vector], returns [NEW]. *)
Definition update_venue_search_vector (NEW : Venue.row) : result Venue.row :=
  let NEW :=
    Venue.with_search_vector (Some (venue_search_vector (Venue.name NEW))) NEW in
  Ok NEW.

(* --------------------------------------------------------------------- *)
(** ** Writes to a table whose triggers are installed *)
(* --------------------------------------------------------------------- *)

(** The BEFORE row triggers of [wc_venues], in the order PostgreSQL runs
    them (by name). *)
Definition venue_before_row (op : tg_op) (NEW : Venue.row) : result Venue.row :=
  NEW ← before_row trigger_update_venue_location update_venue_location op NEW;
  before_row trigger_update_venue_search_vector update_venue_search_vector op NEW.

(** [INSERT INTO wc_venues VALUES (NEW)]: the row that is stored. *)
Definition venue_insert (NEW : Venue.row) : result Venue.row :=
  venue_before_row INSERT NEW.

(** [UPDATE wc_venues SET s] on the row [OLD]: the row that is stored. *)
Definition venue_update (s : Venue.assignments) (OLD : Venue.row)
  : result Venue.row :=
  venue_before_row (UPDATE (Venue.targets s)) (Venue.apply s OLD).

Definition event_before_row (op : tg_op) (NEW : Event.row) : result Event.row :=
  before_row trigger_update_event_search_vector update_event_search_vector op NEW.

Definition event_insert (NEW : Event.row) : result Event.row :=
  event_before_row INSERT NEW.


(** An UPDATE that assigns [location] itself while naming neither [lat]
    nor [lon]: the location trigger does not fire on it. *)
Definition writes_location_directly (s : Venue.assignments) : bool :=
  Sql.IS_NOT_NULL (Venue.set_location s) &&
  negb (fires trigger_update_venue_location (UPDATE (Venue.targets s))).

(** The venue rows the table can hold once the migration has run: the
    rows it found, and what INSERTs and UPDATEs leave. *)
Inductive reachable : Venue.row -> Prop :=
| reach_migrated r :
    reachable (migrated r)
| reach_insert NEW v :
    venue_insert NEW = Ok v -> reachable v
| reach_update s OLD v :
    reachable OLD -> venue_update s OLD = Ok v -> reachable v.

(** The same, when no UPDATE writes [location] directly. *)
Inductive maintained : Venue.row -> Prop :=
| maintained_migrated r :
    maintained (migrated r)
| maintained_insert NEW v :
    venue_insert NEW = Ok v -> maintained v
| maintained_update s OLD v :
    maintained OLD -> writes_location_directly s = false ->
    venue_update s OLD = Ok v -> maintained v.

(** The same, from the rows a migration left in the table, whatever it
    found there: the rows [found], the rows INSERTs store, and what
    UPDATEs make of such rows when none of them writes [location]
    directly. *)
Inductive venue_kept (found : list Venue.row) : Venue.row -> Prop :=
| venue_kept_found v :
    In v found -> venue_kept found v
| venue_kept_insert NEW v :
    venue_insert NEW = Ok v -> venue_kept found v
| venue_kept_update s OLD v :
    venue_kept found OLD -> writes_location_directly s = false ->
    venue_update s OLD = Ok v -> venue_kept found v.

(** What the BEFORE triggers of [wc_venues] make of [NEW], in one
    expression. *)
Definition venue_after_location (op : tg_op) (NEW : Venue.row) : Venue.row :=
  if fires trigger_update_venue_location op
  then Venue.with_location (derived_location NEW) NEW
  else NEW.

Definition venue_after_triggers (op : tg_op) (NEW : Venue.row) : Venue.row :=
  let NEW := venue_after_location op NEW in
  if fires trigger_update_venue_search_vector op
  then Venue.with_search_vector
         (Some (venue_search_vector (Venue.name NEW))) NEW
  else NEW.

End Triggers.

(* --------------------------------------------------------------------- *)
(** ** The size a tsvector can have *)
(* --------------------------------------------------------------------- *)

(** PostgreSQL has room for 1048575 bytes of lexemes and positions in a
    tsvector: [to_tsvector] and [||] raise [program_limit_exceeded]
    (string is too long for tsvector) on a result beyond that. Neither
    trigger function has an EXCEPTION clause, so the error ends the write
    that fired the trigger. [update_event_search_vector] and
    [update_venue_search_vector] above give the row the function returns
    when it returns one; the functions below are the same two bodies over
    built-ins that can raise. [fits] says whether a vector is within the
    size. *)
Section Limits.

Variable english : ts_config.
Variable fits : tsvector -> bool.

Definition within_limit (v : tsvector) : result tsvector :=
  if fits v then Ok v
  else Err (program_limit_exceeded "string is too long for tsvector").

(** [to_tsvector('english', doc)]. *)
Definition to_tsvector_limited (doc : string) : result tsvector :=
  within_limit (to_tsvector english doc).

(** [v1 || v2]. *)
Definition tsvector_concat_limited (v1 v2 : tsvector) : result tsvector :=
  within_limit (tsvector_concat v1 v2).

(** [setweight(to_tsvector('english', COALESCE(title, '')), 'A') ||
    setweight(to_tsvector('english', COALESCE(description, '')), 'B')]. *)
Definition event_search_vector_limited (title description : option string)
  : result tsvector :=
  a ← to_tsvector_limited (Sql.COALESCE title "");
  b ← to_tsvector_limited (Sql.COALESCE description "");
  tsvector_concat_limited (setweight a Weight.A) (setweight b Weight.B).

(** [to_tsvector('english', COALESCE(name, ''))]. *)
Definition venue_search_vector_limited (name : option string)
  : result tsvector :=
  to_tsvector_limited (Sql.COALESCE name "").

(** [update_event_search_vector()]: assigns [NEW.search_vector] and
    returns [NEW], or raises what the expression raises. *)
Definition update_event_search_vector_limited (NEW : Event.row)
  : result Event.row :=
  v ← event_search_vector_limited (Event.title NEW) (Event.description NEW);
  Ok (Event.with_search_vector (Some v) NEW).

(** [update_venue_search_vector()], the same way. *)
Definition update_venue_search_vector_limited (NEW : Venue.row)
  : result Venue.row :=
  v ← venue_search_vector_limited (Venue.name NEW);
  Ok (Venue.with_search_vector (Some v) NEW).

(** The three vectors the expression for an event builds are all within
    the size: the one of the title, the one of the description, and the
    two joined. *)
Definition event_vectors_fit (title description : option string) : bool :=
  fits (to_tsvector english (Sql.COALESCE title "")) &&
  fits (to_tsvector english (Sql.COALESCE description "")) &&
  fits (event_search_vector english title description).

(** The vector of a venue name is within the size. *)
Definition venue_vector_fits (name : option string) : bool :=
  fits (venue_search_vector english name).

End Limits.

(* ===================================================================== *)
(** * The database the migrations run against *)
(* ===================================================================== *)

(** [CREATE INDEX name ON table USING method (expression) WHERE predicate]. *)
Record index : Type := Index {
  ix_table : string;
  ix_method : string;
  ix_expression : string;
  ix_where : option string
}.

(** The body stored for a function name. *)
Inductive routine : Type :=
| body_update_venue_location
| body_update_event_search_vector
| body_update_venue_search_vector
| body_other (source : string).

(** The part of the catalog and of the tables the migrations read or
    write. Comments are keyed by the object they are on, triggers by table
    and name. *)
Record database : Type := Database {
  extensions : gset string;
  columns : gset (string * string);
  comments : gmap string string;
  indexes : gmap string index;
  functions : gmap string routine;
  triggers : gmap (string * string) trigger;
  wc_events : list Event.row;
  wc_venues : list Venue.row
}.

Definition with_extensions (f : gset string -> gset string) (db : database) :=
  Database (f (extensions db)) (columns db) (comments db) (indexes db)
           (functions db) (triggers db) (wc_events db) (wc_venues db).

Definition with_columns (f : gset (string * string) -> gset (string * string))
    (db : database) :=
  Database (extensions db) (f (columns db)) (comments db) (indexes db)
           (functions db) (triggers db) (wc_events db) (wc_venues db).

Definition with_comments (f : gmap string string -> gmap string string)
    (db : database) :=
  Database (extensions db) (columns db) (f (comments db)) (indexes db)
           (functions db) (triggers db) (wc_events db) (wc_venues db).

Definition with_indexes (f : gmap string index -> gmap string index)
    (db : database) :=
  Database (extensions db) (columns db) (comments db) (f (indexes db))
           (functions db) (triggers db) (wc_events db) (wc_venues db).

Definition with_functions (f : gmap string routine -> gmap string routine)
    (db : database) :=
  Database (extensions db) (columns db) (comments db) (indexes db)
           (f (functions db)) (triggers db) (wc_events db) (wc_venues db).

Definition with_triggers
    (f : gmap (string * string) trigger -> gmap (string * string) trigger)
    (db : database) :=
  Database (extensions db) (columns db) (comments db) (indexes db)
           (functions db) (f (triggers db)) (wc_events db) (wc_venues db).

Definition with_events (f : list Event.row -> list Event.row) (db : database) :=
  Database (extensions db) (columns db) (comments db) (indexes db)
           (functions db) (triggers db) (f (wc_events db)) (wc_venues db).

Definition with_venues (f : list Venue.row -> list Venue.row) (db : database) :=
  Database (extensions db) (columns db) (comments db) (indexes db)
           (functions db) (triggers db) (wc_events db) (f (wc_venues db)).

(** A statement changes the database or fails and leaves it as it was. *)
Definition statement : Type := database -> result database.

(** Statements are sent one at a time: one that fails leaves the database
    as it was, and the script goes on with the next. *)
Definition step (db : database) (s : statement) : database :=
  match s db with
  | Ok db' => db'
  | Err _ => db
  end.

Definition run (script : list statement) (db : database) : database :=
  fold_left step script db.

(** A client can also send a script as one query. PostgreSQL then runs it
    as one transaction: the first statement that fails ends it, and the
    database stays as it was before the script. A script one of whose
    statements no database accepts is refused that way wherever it is
    sent. The statements below take a [SELECT] and an [ANALYZE] to
    succeed, so [Ok] here is what the script leaves if it commits, and
    [Err] is a script that cannot commit. *)
Fixpoint run_as_one_query (script : list statement) (db : database)
  : result database :=
  match script with
  | [] => Ok db
  | s :: rest => db' ← s db; run_as_one_query rest db'
  end.

(* --------------------------------------------------------------------- *)
(** ** The statement forms the migrations use *)
(* --------------------------------------------------------------------- *)

Definition has_column (db : database) (table column : string) : bool :=
  bool_decide ((table, column) ∈ columns db).

Definition has_extension (db : database) (name : string) : bool :=
  bool_decide (name ∈ extensions db).

Definition has_index (db : database) (name : string) : bool :=
  Sql.IS_NOT_NULL (indexes db !! name).

Definition has_function (db : database) (name : string) : bool :=
  Sql.IS_NOT_NULL (functions db !! name).

Definition has_trigger (db : database) (table name : string) : bool :=
  Sql.IS_NOT_NULL (triggers db !! (table, name)).

(** [CREATE EXTENSION IF NOT EXISTS name SCHEMA public]. *)
Definition CREATE_EXTENSION_IF_NOT_EXISTS (name : string) : statement :=
  fun db => Ok (with_extensions (fun e => {[name]} ∪ e) db).

(** [ALTER TABLE table ADD COLUMN IF NOT EXISTS column type]: a new column
    holds NULL in every row ([nulls] writes them); an existing one is left
    alone. *)
Definition ADD_COLUMN_IF_NOT_EXISTS (table column : string)
    (nulls : database -> database) : statement :=
  fun db =>
    if has_column db table column then Ok db
    else Ok (with_columns (fun c => {[(table, column)]} ∪ c) (nulls db)).

(** [COMMENT ON COLUMN table.column IS text]. *)
Definition COMMENT_ON_COLUMN (table column text : string) : statement :=
  fun db =>
    if has_column db table column then
      Ok (with_comments (insert ("COLUMN " +:+ table +:+ "." +:+ column) text) db)
    else Err (undefined_object (table +:+ "." +:+ column)).

(** [COMMENT ON INDEX name IS text]. *)
Definition COMMENT_ON_INDEX (name text : string) : statement :=
  fun db =>
    if has_index db name then
      Ok (with_comments (insert ("INDEX " +:+ name) text) db)
    else Err (undefined_object name).

(** [COMMENT ON FUNCTION name() IS text]. *)
Definition COMMENT_ON_FUNCTION (name text : string) : statement :=
  fun db =>
    if has_function db name then
      Ok (with_comments (insert ("FUNCTION " +:+ name) text) db)
    else Err (undefined_object name).

(** The entry [k := v] unless [k] is taken. *)
Definition create_if_absent {K V : Type} `{Countable K}
    (k : K) (v : V) (m : gmap K V) : gmap K V :=
  match m !! k with
  | Some _ => m
  | None => <[k := v]> m
  end.

(** [CREATE INDEX IF NOT EXISTS name ON table USING method (expr) WHERE p]. *)
Definition CREATE_INDEX_IF_NOT_EXISTS (name : string) (ix : index) : statement :=
  fun db => Ok (with_indexes (create_if_absent name ix) db).

(** [CREATE OR REPLACE FUNCTION name() RETURNS TRIGGER AS body]. *)
Definition CREATE_OR_REPLACE_FUNCTION (name : string) (body : routine)
  : statement :=
  fun db => Ok (with_functions (insert name body) db).

(** A trigger of the catalog executes the function. *)
Definition function_in_use (db : database) (name : string) : bool :=
  existsb (fun entry => String.eqb (tg_function (snd entry)) name)
          (map_to_list (triggers db)).

(** [DROP FUNCTION IF EXISTS name()]: the function goes, and the comment
    on it with it; a function that a trigger executes cannot be dropped. *)
Definition DROP_FUNCTION_IF_EXISTS (name : string) : statement :=
  fun db =>
    if function_in_use db name then Err (dependent_objects name)
    else Ok (with_comments (delete ("FUNCTION " +:+ name))
               (with_functions (delete name) db)).

(** [DROP TRIGGER IF EXISTS name ON table]. *)
Definition DROP_TRIGGER_IF_EXISTS (name table : string) : statement :=
  fun db => Ok (with_triggers (delete (table, name)) db).

(** [CREATE TRIGGER name BEFORE ... ON table FOR EACH ROW EXECUTE FUNCTION
    f()]: needs the function, and fails if the table has a trigger of that
    name. *)
Definition CREATE_TRIGGER (name : string) (tg : trigger) : statement :=
  fun db =>
    if has_function db (tg_function tg) then
      if has_trigger db (tg_table tg) name then Err (duplicate_object name)
      else Ok (with_triggers (insert (tg_table tg, name) tg) db)
    else Err (undefined_object (tg_function tg)).

(** [ANALYZE], a [SELECT], and a [DO] block that only raises notices write
    none of the modelled state, whether they succeed or not. *)
Definition ANALYZE (table : string) : statement := fun db => Ok db.
Definition SELECT : statement := fun db => Ok db.
Definition DO_RAISE_NOTICE : statement := fun db => Ok db.

(** [RAISE] outside a plpgsql block is not an SQL statement. *)
Definition RAISE_NOTICE_outside_block : statement :=
  fun db => Err (syntax_error "RAISE").

(** [UPDATE public.wc_events SET column = ... WHERE ...]: [set] is applied
    to the rows that satisfy [cond]. The migrations use it on a derived
    column only, which none of their triggers watches, so no trigger runs. *)
Definition UPDATE_wc_events (column : string) (set : Event.row -> Event.row)
    (cond : Event.row -> bool) : statement :=
  fun db =>
    if has_column db "public.wc_events" column then
      Ok (with_events (map (fun r => if cond r then set r else r)) db)
    else Err (undefined_object ("public.wc_events." +:+ column)).

(** [UPDATE public.wc_venues SET column = ... WHERE ...]. *)
Definition UPDATE_wc_venues (column : string) (set : Venue.row -> Venue.row)
    (cond : Venue.row -> bool) : statement :=
  fun db =>
    if has_column db "public.wc_venues" column then
      Ok (with_venues (map (fun r => if cond r then set r else r)) db)
    else Err (undefined_object ("public.wc_venues." +:+ column)).

(* --------------------------------------------------------------------- *)
(** ** The PostGIS migration *)
(* --------------------------------------------------------------------- *)

(** The [DO] block that looks for the [geography] type, which the postgis
    extension brings. *)
Definition DO_verify_postgis : statement :=
  fun db =>
    if has_extension db "postgis" then Ok db
    else Err (raise_exception
      "PostGIS extension not properly installed. Run: CREATE EXTENSION postgis;").

(** Step 2: [SET location = ST_SetSRID(ST_MakePoint(lon::numeric,
    lat::numeric), 4326)::geography WHERE lat IS NOT NULL AND lon IS NOT NULL
    AND location IS NULL]. *)
Definition backfill_venue_location : statement :=
  UPDATE_wc_venues "location"
    (fun r => Venue.with_location
                (Sql.strict2 point_4326 (Venue.lon r) (Venue.lat r)) r)
    (fun r => Sql.IS_NOT_NULL (Venue.lat r) && Sql.IS_NOT_NULL (Venue.lon r)
              && Sql.IS_NULL (Venue.location r)).

Definition idx_wc_venues_location : index :=
  Index "public.wc_venues" "GIST" "location" None.

Definition postgis_migration : list statement :=
  [ CREATE_EXTENSION_IF_NOT_EXISTS "postgis";
    DO_verify_postgis;
    (* STEP 1 *)
    ADD_COLUMN_IF_NOT_EXISTS "public.wc_venues" "location"
      (with_venues (map (Venue.with_location None)));
    COMMENT_ON_COLUMN "public.wc_venues" "location"
      "PostGIS geography point for efficient spatial queries. Auto-populated from lat/lon.";
    (* STEP 2 *)
    backfill_venue_location;
    DO_RAISE_NOTICE;
    (* STEP 3 *)
    CREATE_INDEX_IF_NOT_EXISTS "idx_wc_venues_location" idx_wc_venues_location;
    COMMENT_ON_INDEX "idx_wc_venues_location"
      "Spatial index for fast distance queries using PostGIS";
    (* STEP 4 *)
    DROP_TRIGGER_IF_EXISTS "trigger_update_venue_location" "public.wc_venues";
    DROP_FUNCTION_IF_EXISTS "update_venue_location";
    CREATE_OR_REPLACE_FUNCTION "update_venue_location" body_update_venue_location;
    COMMENT_ON_FUNCTION "update_venue_location"
      "Automatically updates geography location column when lat/lon changes";
    CREATE_TRIGGER "trigger_update_venue_location"
      trigger_update_venue_location;
    (* STEP 5 *)
    ANALYZE "public.wc_venues";
    (* VERIFICATION QUERIES *)
    SELECT; SELECT; SELECT;
    (* SUCCESS! *)
    RAISE_NOTICE_outside_block; RAISE_NOTICE_outside_block;
    RAISE_NOTICE_outside_block; RAISE_NOTICE_outside_block;
    RAISE_NOTICE_outside_block ].

(** A table the backfill of step 2 brings in step with the coordinates:
    the migration adds the [location] column, or every location it finds
    is NULL, which it fills, or the point of the row's coordinates
    already. *)
Definition locations_can_be_derived (db : database) : Prop :=
  has_column db "public.wc_venues" "location" = false \/
  Forall (fun r => Venue.location r = None \/
                   Venue.location r = derived_location r)
         (wc_venues db).

(** The database the PostGIS migration leaves. *)
Definition postgis_migration_leaves (db : database) : database :=
  Database
    ({["postgis"]} ∪ extensions db)
    ({[("public.wc_venues", "location")]} ∪ columns db)
    (<["FUNCTION update_venue_location" :=
         "Automatically updates geography location column when lat/lon changes"]>
     (<["INDEX idx_wc_venues_location" :=
          "Spatial index for fast distance queries using PostGIS"]>
      (<["COLUMN public.wc_venues.location" :=
           "PostGIS geography point for efficient spatial queries. Auto-populated from lat/lon."]>
       (comments db))))
    (create_if_absent "idx_wc_venues_location" idx_wc_venues_location
                      (indexes db))
    (<["update_venue_location" := body_update_venue_location]> (functions db))
    (<[("public.wc_venues", "trigger_update_venue_location") :=
         trigger_update_venue_location]> (triggers db))
    (wc_events db)
    (map backfilled_location
         (if has_column db "public.wc_venues" "location" then wc_venues db
          else map (Venue.with_location None) (wc_venues db))).

(* --------------------------------------------------------------------- *)
(** ** The index migration *)
(* --------------------------------------------------------------------- *)

Definition idx_wc_events_start_at : index :=
  Index "public.wc_events" "btree" "start_at" (Some "start_at IS NOT NULL").

Definition idx_wc_events_venue_id : index :=
  Index "public.wc_events" "btree" "venue_id" (Some "venue_id IS NOT NULL").

Definition idx_wc_events_start_venue : index :=
  Index "public.wc_events" "btree" "start_at, venue_id" (Some "start_at IS NOT NULL AND venue_id IS NOT NULL").

Definition idx_wc_offers_event_id : index :=
  Index "public.wc_offers" "btree" "event_id" None.

Definition idx_wc_offers_event_price : index :=
  Index "public.wc_offers" "btree" "event_id, price" (Some "price IS NOT NULL").

Definition idx_wc_offers_currency : index :=
  Index "public.wc_offers" "btree" "event_id, currency" (Some "currency IS NOT NULL").

Definition index_migration : list statement :=
  [ (* STEP 1 *)
    CREATE_INDEX_IF_NOT_EXISTS "idx_wc_events_start_at" idx_wc_events_start_at;
    COMMENT_ON_INDEX "idx_wc_events_start_at"
      "Index for fast date range filtering on event start times";
    CREATE_INDEX_IF_NOT_EXISTS "idx_wc_events_venue_id" idx_wc_events_venue_id;
    COMMENT_ON_INDEX "idx_wc_events_venue_id"
      "Index for fast joins between events and venues";
    CREATE_INDEX_IF_NOT_EXISTS "idx_wc_events_start_venue" idx_wc_events_start_venue;
    COMMENT_ON_INDEX "idx_wc_events_start_venue"
      "Composite index for queries filtering by both date and venue";
    (* STEP 2 *)
    CREATE_INDEX_IF_NOT_EXISTS "idx_wc_offers_event_id" idx_wc_offers_event_id;
    CREATE_INDEX_IF_NOT_EXISTS "idx_wc_offers_event_price" idx_wc_offers_event_price;
    COMMENT_ON_INDEX "idx_wc_offers_event_price"
      "Index for fast price aggregation in event searches";
    CREATE_INDEX_IF_NOT_EXISTS "idx_wc_offers_currency" idx_wc_offers_currency;
    (* STEP 3 *)
    ANALYZE "public.wc_events"; ANALYZE "public.wc_venues";
    ANALYZE "public.wc_offers";
    (* VERIFICATION *)
    SELECT; SELECT;
    (* SUCCESS! *)
    DO_RAISE_NOTICE ].

(** The database the index migration leaves. *)
Definition index_migration_leaves (db : database) : database :=
  Database
    (extensions db) (columns db)
    (<["INDEX idx_wc_offers_event_price" :=
         "Index for fast price aggregation in event searches"]>
     (<["INDEX idx_wc_events_start_venue" :=
          "Composite index for queries filtering by both date and venue"]>
      (<["INDEX idx_wc_events_venue_id" :=
           "Index for fast joins between events and venues"]>
       (<["INDEX idx_wc_events_start_at" :=
            "Index for fast date range filtering on event start times"]>
        (comments db)))))
    (create_if_absent "idx_wc_offers_currency" idx_wc_offers_currency
     (create_if_absent "idx_wc_offers_event_price" idx_wc_offers_event_price
      (create_if_absent "idx_wc_offers_event_id" idx_wc_offers_event_id
       (create_if_absent "idx_wc_events_start_venue" idx_wc_events_start_venue
        (create_if_absent "idx_wc_events_venue_id" idx_wc_events_venue_id
         (create_if_absent "idx_wc_events_start_at" idx_wc_events_start_at
            (indexes db)))))))
    (functions db) (triggers db) (wc_events db) (wc_venues db).

(* --------------------------------------------------------------------- *)
(** ** The text-search migration *)
(* --------------------------------------------------------------------- *)

Definition idx_wc_events_search_vector : index :=
  Index "public.wc_events" "GIN" "search_vector" None.

Definition idx_wc_venues_search_vector : index :=
  Index "public.wc_venues" "GIN" "search_vector" None.

Definition idx_wc_events_title_trgm : index :=
  Index "public.wc_events" "GIN" "LOWER(title) gin_trgm_ops" None.

Definition idx_wc_events_description_trgm : index :=
  Index "public.wc_events" "GIN" "LOWER(description) gin_trgm_ops" None.

Definition idx_wc_venues_name_trgm : index :=
  Index "public.wc_venues" "GIN" "LOWER(name) gin_trgm_ops" None.

Section TextSearchMigration.

Variable english : ts_config.

(** Step 2, events: [SET search_vector = setweight(...,'A') ||
    setweight(...,'B') WHERE search_vector IS NULL]. *)
Definition backfill_event_search_vector : statement :=
  UPDATE_wc_events "search_vector"
    (fun r => Event.with_search_vector
                (Some (event_search_vector english (Event.title r)
                                           (Event.description r))) r)
    (fun r => Sql.IS_NULL (Event.search_vector r)).

(** Step 2, venues: [SET search_vector = to_tsvector('english',
    COALESCE(name, '')) WHERE search_vector IS NULL]. *)
Definition backfill_venue_search_vector : statement :=
  UPDATE_wc_venues "search_vector"
    (fun r => Venue.with_search_vector
                (Some (venue_search_vector english (Venue.name r))) r)
    (fun r => Sql.IS_NULL (Venue.search_vector r)).

Definition text_search_migration : list statement :=
  [ (* STEP 1 *)
    ADD_COLUMN_IF_NOT_EXISTS "public.wc_events" "search_vector"
      (with_events (map (Event.with_search_vector None)));
    COMMENT_ON_COLUMN "public.wc_events" "search_vector"
      "Full-text search vector combining title and description for fast text search";
    ADD_COLUMN_IF_NOT_EXISTS "public.wc_venues" "search_vector"
      (with_venues (map (Venue.with_search_vector None)));
    COMMENT_ON_COLUMN "public.wc_venues" "search_vector"
      "Full-text search vector for venue name for fast text search";
    (* STEP 2 *)
    backfill_event_search_vector;
    backfill_venue_search_vector;
    DO_RAISE_NOTICE;
    (* STEP 3 *)
    CREATE_INDEX_IF_NOT_EXISTS "idx_wc_events_search_vector" idx_wc_events_search_vector;
    COMMENT_ON_INDEX "idx_wc_events_search_vector"
      "GIN index for fast full-text search on event titles and descriptions";
    CREATE_INDEX_IF_NOT_EXISTS "idx_wc_venues_search_vector" idx_wc_venues_search_vector;
    COMMENT_ON_INDEX "idx_wc_venues_search_vector"
      "GIN index for fast full-text search on venue names";
    (* STEP 4 *)
    CREATE_EXTENSION_IF_NOT_EXISTS "pg_trgm";
    CREATE_INDEX_IF_NOT_EXISTS "idx_wc_events_title_trgm" idx_wc_events_title_trgm;
    CREATE_INDEX_IF_NOT_EXISTS "idx_wc_events_description_trgm" idx_wc_events_description_trgm;
    CREATE_INDEX_IF_NOT_EXISTS "idx_wc_venues_name_trgm" idx_wc_venues_name_trgm;
    (* STEP 5 *)
    CREATE_OR_REPLACE_FUNCTION "update_event_search_vector"
      body_update_event_search_vector;
    CREATE_OR_REPLACE_FUNCTION "update_venue_search_vector"
      body_update_venue_search_vector;
    DROP_TRIGGER_IF_EXISTS "trigger_update_event_search_vector" "public.wc_events";
    CREATE_TRIGGER "trigger_update_event_search_vector"
      trigger_update_event_search_vector;
    DROP_TRIGGER_IF_EXISTS "trigger_update_venue_search_vector" "public.wc_venues";
    CREATE_TRIGGER "trigger_update_venue_search_vector"
      trigger_update_venue_search_vector;
    (* STEP 6 *)
    ANALYZE "public.wc_events"; ANALYZE "public.wc_venues";
    (* VERIFICATION QUERIES *)
    SELECT; SELECT; SELECT; SELECT;
    (* SUCCESS! *)
    DO_RAISE_NOTICE ].

(** What the backfills of step 2 make of one row. *)
Definition backfilled_event_vector (r : Event.row) : Event.row :=
  if Sql.IS_NULL (Event.search_vector r)
  then Event.with_search_vector
         (Some (event_search_vector english (Event.title r)
                                    (Event.description r))) r
  else r.

Definition backfilled_venue_vector (r : Venue.row) : Venue.row :=
  if Sql.IS_NULL (Venue.search_vector r)
  then Venue.with_search_vector
         (Some (venue_search_vector english (Venue.name r))) r
  else r.

(** The database the text-search migration leaves. *)
Definition text_search_migration_leaves (db : database) : database :=
  Database
    ({["pg_trgm"]} ∪ extensions db)
    ({[("public.wc_venues", "search_vector")]} ∪
       ({[("public.wc_events", "search_vector")]} ∪ columns db))
    (<["INDEX idx_wc_venues_search_vector" :=
         "GIN index for fast full-text search on venue names"]>
     (<["INDEX idx_wc_events_search_vector" :=
          "GIN index for fast full-text search on event titles and descriptions"]>
      (<["COLUMN public.wc_venues.search_vector" :=
           "Full-text search vector for venue name for fast text search"]>
       (<["COLUMN public.wc_events.search_vector" :=
            "Full-text search vector combining title and description for fast text search"]>
        (comments db)))))
    (create_if_absent "idx_wc_venues_name_trgm" idx_wc_venues_name_trgm
     (create_if_absent "idx_wc_events_description_trgm"
                       idx_wc_events_description_trgm
      (create_if_absent "idx_wc_events_title_trgm" idx_wc_events_title_trgm
       (create_if_absent "idx_wc_venues_search_vector"
                         idx_wc_venues_search_vector
        (create_if_absent "idx_wc_events_search_vector"
                          idx_wc_events_search_vector
           (indexes db))))))
    (<["update_venue_search_vector" := body_update_venue_search_vector]>
     (<["update_event_search_vector" := body_update_event_search_vector]>
      (functions db)))
    (<[("public.wc_venues", "trigger_update_venue_search_vector") :=
         trigger_update_venue_search_vector]>
     (<[("public.wc_events", "trigger_update_event_search_vector") :=
          trigger_update_event_search_vector]>
      (triggers db)))
    (map backfilled_event_vector
         (if has_column db "public.wc_events" "search_vector"
          then wc_events db
          else map (Event.with_search_vector None) (wc_events db)))
    (map backfilled_venue_vector
         (if has_column db "public.wc_venues" "search_vector"
          then wc_venues db
          else map (Venue.with_search_vector None) (wc_venues db))).

End TextSearchMigration.

(* --------------------------------------------------------------------- *)
(** ** Event rows after the text-search migration *)
(* --------------------------------------------------------------------- *)

Section EventRows.

Variable english : ts_config.

(** What the search-vector column of an event must hold. *)
Definition derived_event_vector (e : Event.row) : option tsvector :=
  Some (event_search_vector english (Event.title e) (Event.description e)).




End EventRows.

(* ===================================================================== *)
(** * The event search query *)
(* ===================================================================== *)

(** [geoLocation]: the centre of a geographic filter. *)
Module Geo.
Record t : Type := Make { lat : Q; lon : Q }.
End Geo.

(** What a search asks for. The date, text and price parameters are the
    [$date_min], [$date_max], [$query], [$price_min], [$price_max] of the
    query; [geoLocation], [radiusMiles], [q] and [sort] are the variables of
    the TypeScript snippets; [q] is the text bound to [$query]. *)
Module Request.
Record t : Type := Make {
  date_min : option Z;
  date_max : option Z;
  geoLocation : option Geo.t;
  radiusMiles : Q;
  q : option string;
  price_min : option Q;
  price_max : option Q;
  sort : string
}.
End Request.

(** A row of the join the WHERE clause filters: the event [e], its venue
    [v] if the join found one, and the price summary [ep] of its offers. *)
Module Joined.
Record t : Type := Make {
  e : Event.row;
  v : option Venue.row;
  price_min : option Q;
  price_max : option Q
}.

(** [v.location] and [v.search_vector]: NULL when there is no venue. *)
Definition v_location (r : t) : option geography :=
  match v r with
  | Some venue => Venue.location venue
  | None => None
  end.

Definition v_search_vector (r : t) : option tsvector :=
  match v r with
  | Some venue => Venue.search_vector venue
  | None => None
  end.
End Joined.

(** The conjuncts of the WHERE clause, as the index migration lists them.
    The geographic test names its three parameters by position, as the
    snippet that appends it does. *)
Inductive conjunct : Type :=
| start_at_ge_date_min           (* e.start_at >= $date_min *)
| start_at_le_date_max           (* e.start_at <= $date_max *)
| location_is_not_null           (* v.location IS NOT NULL *)
| st_dwithin (x_param y_param radius_param : nat)
    (* ST_DWithin(v.location,
         ST_SetSRID(ST_MakePoint($x, $y), 4326)::geography, $radius) *)
| search_vectors_match
    (* (e.search_vector @@ to_tsquery('english', $query)
        OR v.search_vector @@ to_tsquery('english', $query)) *)
| price_min_ge_price_min         (* ep.price_min >= $price_min *)
| price_max_le_price_max.        (* ep.price_max <= $price_max *)

(** The four filters, in the order the migration recommends them. *)
Inductive filter_kind : Type :=
| date_range
| geographic
| text_search
| price.

Definition kind_of (c : conjunct) : filter_kind :=
  match c with
  | start_at_ge_date_min | start_at_le_date_max => date_range
  | location_is_not_null | st_dwithin _ _ _ => geographic
  | search_vectors_match => text_search
  | price_min_ge_price_min | price_max_le_price_max => price
  end.

Definition stage (k : filter_kind) : nat :=
  match k with
  | date_range => 1
  | geographic => 2
  | text_search => 3
  | price => 4
  end.

(** The conjuncts of one filter in a clause. *)
Definition of_kind (k : filter_kind) (cs : list conjunct) : list conjunct :=
  List.filter (fun c => Nat.eqb (stage (kind_of c)) (stage k)) cs.

(** The state of the query builder: the conjuncts appended to
    [WHERE 1=1] so far, the positional parameters pushed so far, and the
    number the next parameter gets. *)
Record builder : Type := Builder {
  sqlQuery : list conjunct;
  queryParams : list Q;
  paramIndex : nat
}.

Definition initial : builder := Builder [] [] 1.

(** Truthiness of an optional JavaScript string: [undefined] and the empty
    string are falsy. *)
Definition truthy (s : option string) : bool :=
  match s with
  | Some t => negb (String.eqb t "")
  | None => false
  end.

(** The index migration writes the clause out with every parameter bound:
<<
  WHERE 1=1
    AND e.start_at >= $date_min
    AND e.start_at <= $date_max
    AND v.location IS NOT NULL
    AND ST_DWithin(v.location, user_location, radius)
    AND (e.search_vector @@ to_tsquery('english', $query)
         OR v.search_vector @@ to_tsquery('english', $query))
    AND ep.price_min >= $price_min
    AND ep.price_max <= $price_max
>>
    and POSTGIS_SETUP.md shows how the geographic pair gets there: appended
    to [sqlQuery] under [if (geoLocation)]. The code that appends the
    other conjuncts is not under src/. *)
Definition append_if (present : bool) (c : conjunct) (b : builder) : builder :=
  if present then Builder (sqlQuery b ++ [c]) (queryParams b) (paramIndex b)
  else b.

(** Modelled from the spec: the date-range step of the query planner,
    whose code is not under src/. The spec has it first, applied when a
    date range is given, on the event's start time; the two conjuncts are
    those of the clause above, each appended when its bound is given. *)
Definition date_range_filtering (r : Request.t) (b : builder) : builder :=
  append_if (Sql.IS_NOT_NULL (Request.date_max r)) start_at_le_date_max
    (append_if (Sql.IS_NOT_NULL (Request.date_min r)) start_at_ge_date_min b).

(** 2. Geographic filtering using PostGIS:
<<
  if (geoLocation) {
    const radiusMeters = radiusMiles * 1609.34;
    sqlQuery += `AND v.location IS NOT NULL
                 AND ST_DWithin(v.location,
                   ST_SetSRID(ST_MakePoint($${paramIndex + 1}, $${paramIndex}),
                              4326)::geography,
                   $${paramIndex + 2})`;
    queryParams.push(geoLocation.lat, geoLocation.lon, radiusMeters);
    paramIndex += 3;
  }
>> *)
Definition geographic_filtering (geoLocation : option Geo.t) (radiusMiles : Q)
    (b : builder) : builder :=
  match geoLocation with
  | Some geoLocation =>
      let radiusMeters := (radiusMiles * 1609.34)%Q in
      Builder
        (sqlQuery b ++
           [location_is_not_null;
            st_dwithin (paramIndex b + 1)%nat (paramIndex b) (paramIndex b + 2)%nat])
        (queryParams b ++
           [Geo.lat geoLocation; Geo.lon geoLocation; radiusMeters])
        (paramIndex b + 3)%nat
  | None => b
  end.

(** Modelled from the spec: the text step of the query planner, whose code
    is not under src/. The spec has it third, applied when a text query is
    given, keeping an event if its own or its venue's text representation
    matches; the conjunct is the one of the clause above. *)
Definition text_search_filtering (r : Request.t) (b : builder) : builder :=
  append_if (truthy (Request.q r)) search_vectors_match b.

(** Modelled from the spec: the price step of the query planner, whose
    code is not under src/. The spec has it last, applied when a price
    range is given, against the joined offer data; the two conjuncts are
    those of the clause above, each appended when its bound is given. *)
Definition price_filtering (r : Request.t) (b : builder) : builder :=
  append_if (Sql.IS_NOT_NULL (Request.price_max r)) price_max_le_price_max
    (append_if (Sql.IS_NOT_NULL (Request.price_min r)) price_min_ge_price_min b).

(** Modelled from the spec: the query planner, whose code is not under
    src/, composes the four steps in this order: date range, geographic,
    text, price. Of the four, [geographic_filtering] is the code of
    POSTGIS_SETUP.md; the order is the one the spec gives and the comment
    of the index migration recommends. *)
Definition where_clause (r : Request.t) : builder :=
  price_filtering r
    (text_search_filtering r
      (geographic_filtering (Request.geoLocation r) (Request.radiusMiles r)
        (date_range_filtering r initial))).

(** The value of [$n]; NULL if nothing was pushed for it. *)
Definition param (params : list Q) (n : nat) : option Q :=
  nth_error params (n - 1)%nat.

(** What an ORDER BY sorts on, and which way. *)
Inductive sort_key : Type :=
| e_start_at                                 (* e.start_at *)
| ST_Distance_from (center : geography).     (* ST_Distance(v.location, center) *)

Inductive direction : Type := ASC | DESC.

(** An ORDER BY clause; [[]] is the empty string [orderBy] starts as. *)
Definition order_by : Type := list (sort_key * direction).

(** Sorting:
<<
  let orderBy = "";
  if (sort === "date") {
    orderBy = "ORDER BY e.start_at ASC";
  } else if (sort === "distance" && geoLocation) {
    orderBy = `ORDER BY ST_Distance(v.location,
      ST_SetSRID(ST_MakePoint(${geoLocation.lon}, ${geoLocation.lat}),
                 4326)::geography) ASC`;
  } else {
    // Default: relevance sort (text match first, then by date)
    orderBy = q ? "ORDER BY e.start_at DESC" : "ORDER BY e.start_at DESC";
  }
>> *)
Definition orderBy (sort : string) (geoLocation : option Geo.t)
    (q : option string) : order_by :=
  if String.eqb sort "date" then [(e_start_at, ASC)]
  else
    match String.eqb sort "distance", geoLocation with
    | true, Some geoLocation =>
        [(ST_Distance_from
            (point_4326 (Geo.lon geoLocation) (Geo.lat geoLocation)), ASC)]
    | _, _ =>
        if truthy q then [(e_start_at, DESC)] else [(e_start_at, DESC)]
    end.

(** The conjuncts each filter contributes. *)
Definition optional (present : bool) (c : conjunct) : list conjunct :=
  if present then [c] else [].

Definition date_conjuncts (r : Request.t) : list conjunct :=
  optional (Sql.IS_NOT_NULL (Request.date_min r)) start_at_ge_date_min ++
  optional (Sql.IS_NOT_NULL (Request.date_max r)) start_at_le_date_max.

Definition geographic_conjuncts (r : Request.t) : list conjunct :=
  match Request.geoLocation r with
  | Some _ => [location_is_not_null; st_dwithin 2 1 3]
  | None => []
  end.

Definition text_conjuncts (r : Request.t) : list conjunct :=
  optional (truthy (Request.q r)) search_vectors_match.

Definition price_conjuncts (r : Request.t) : list conjunct :=
  optional (Sql.IS_NOT_NULL (Request.price_min r)) price_min_ge_price_min ++
  optional (Sql.IS_NOT_NULL (Request.price_max r)) price_max_le_price_max.

Section Search.

Variable english : ts_config.
Variable ST_Distance : geography -> geography -> Q.

(** [ST_DWithin(a, b, r)]: the two are within [r] metres of each other. *)
Definition ST_DWithin (a b : option geography) (r : option Q) : Sql.truth :=
  match a, b, r with
  | Some a, Some b, Some r => Some (Qle_bool (ST_Distance a b) r)
  | _, _, _ => None
  end.

(** [v @@ to_tsquery('english', query)]. *)
Definition matches (v : option tsvector) (query : option string) : Sql.truth :=
  Sql.strict2 (fun v q => ts_match v (to_tsquery english q)) v query.

Definition timestamp (z : option Z) : option Q :=
  match z with
  | Some t => Some (inject_Z t)
  | None => None
  end.

(** The value of one conjunct on a joined row. *)
Definition eval (r : Request.t) (params : list Q) (c : conjunct)
    (row : Joined.t) : Sql.truth :=
  match c with
  | start_at_ge_date_min =>
      Sql.GE (timestamp (Event.start_at (Joined.e row)))
             (timestamp (Request.date_min r))
  | start_at_le_date_max =>
      Sql.LE (timestamp (Event.start_at (Joined.e row)))
             (timestamp (Request.date_max r))
  | location_is_not_null =>
      Some (Sql.IS_NOT_NULL (Joined.v_location row))
  | st_dwithin x_param y_param radius_param =>
      ST_DWithin (Joined.v_location row)
                 (Sql.strict2 point_4326 (param params x_param)
                                         (param params y_param))
                 (param params radius_param)
  | search_vectors_match =>
      Sql.OR (matches (Event.search_vector (Joined.e row)) (Request.q r))
             (matches (Joined.v_search_vector row) (Request.q r))
  | price_min_ge_price_min =>
      Sql.GE (Joined.price_min row) (Request.price_min r)
  | price_max_le_price_max =>
      Sql.LE (Joined.price_max row) (Request.price_max r)
  end.

(** [WHERE 1=1 AND c1 AND c2 ...] on a joined row. *)
Definition condition (r : Request.t) (params : list Q) (cs : list conjunct)
    (row : Joined.t) : Sql.truth :=
  fold_left (fun acc c => Sql.AND acc (eval r params c row)) cs Sql.TRUE.

(** Every conjunct of [cs] is TRUE on a row, under the parameters of the
    request's clause. *)
Definition all_hold (r : Request.t) (row : Joined.t) (cs : list conjunct)
  : bool :=
  forallb (fun c => Sql.holds (eval r (queryParams (where_clause r)) c row)) cs.

(** The rows the WHERE clause of a request keeps. *)
Definition keeps (r : Request.t) (row : Joined.t) : bool :=
  Sql.holds (condition r (queryParams (where_clause r))
                       (sqlQuery (where_clause r)) row).

(** The value a row is sorted on. *)
Definition sort_value (k : sort_key) (row : Joined.t) : option Q :=
  match k with
  | e_start_at => timestamp (Event.start_at (Joined.e row))
  | ST_Distance_from center =>
      Sql.strict2 ST_Distance (Joined.v_location row) (Some center)
  end.

(** NULL sorts as larger than every value: last under ASC, first under
    DESC. *)
Definition value_le (a b : option Q) : bool :=
  match a, b with
  | _, None => true
  | None, Some _ => false
  | Some x, Some y => Qle_bool x y
  end.

(** [row1] may stand before [row2] under the clause. *)
Fixpoint in_order (o : order_by) (row1 row2 : Joined.t) : bool :=
  match o with
  | [] => true
  | (k, ASC) :: o' =>
      let a := sort_value k row1 in
      let b := sort_value k row2 in
      if value_le a b then (if value_le b a then in_order o' row1 row2 else true)
      else false
  | (k, DESC) :: o' =>
      let a := sort_value k row1 in
      let b := sort_value k row2 in
      if value_le b a then (if value_le a b then in_order o' row1 row2 else true)
      else false
  end.

Fixpoint place (o : order_by) (row : Joined.t) (sorted : list Joined.t)
  : list Joined.t :=
  match sorted with
  | [] => [row]
  | r :: rest =>
      if in_order o row r then row :: r :: rest
      else r :: place o row rest
  end.

(** [ORDER BY o]: an insertion sort, which keeps rows that tie in the
    order they came. *)
Definition ORDER_BY (o : order_by) (rows : list Joined.t) : list Joined.t :=
  fold_right (place o) [] rows.

(** The search: filter by the WHERE clause, then sort. *)
Definition search (r : Request.t) (rows : list Joined.t) : list Joined.t :=
  ORDER_BY (orderBy (Request.sort r) (Request.geoLocation r) (Request.q r))
           (List.filter (keeps r) rows).

End Search.

(* ===================================================================== *)
(** * Rows to evaluate the code on *)
(* ===================================================================== *)

Module Rows.

(** Venue A of the scenario, as an INSERT proposes it. *)
Definition venue_a : Venue.row :=
  Venue.Row "venue-a" (Some "lucas oil stadium")
            (Some 39.7684%Q) (Some (-86.1581)%Q) None None ∅.

(** A venue whose latitude is outside [-90, 90]. *)
Definition venue_north : Venue.row :=
  Venue.Row "venue-n" (Some "north of the pole") (Some 91%Q) (Some 0%Q)
            None None ∅.

(** Venue B of the scenario: latitude set, longitude NULL. *)
Definition venue_b : Venue.row :=
  Venue.Row "venue-b" (Some "somewhere") (Some 39.7684%Q) None None None ∅.

(** [UPDATE wc_venues SET location = NULL]. *)
Definition set_location_null : Venue.assignments :=
  Venue.Assign None None None (Some None) None ∅.

(** [UPDATE wc_venues SET lon = NULL]. *)
Definition set_lon_null : Venue.assignments :=
  Venue.Assign None None (Some None) None None ∅.

(** The stored row of an INSERT or UPDATE, when it did not fail. *)
Definition stored {R : Type} (fallback : R) (r : result R) : R :=
  match r with
  | Ok v => v
  | Err _ => fallback
  end.

Definition venue_a_stored : Venue.row :=
  stored venue_a (venue_insert Sample.english venue_a).

Definition venue_b_stored : Venue.row :=
  stored venue_b (venue_insert Sample.english venue_b).

(** An event whose title matches "concert". *)
Definition concert_night : Event.row :=
  Event.Row "event-1" (Some "concert night") (Some "doors open at seven")
            (Some 100%Z) (Some "venue-a") None ∅.

(** A later event that matches "concert" in its description only. *)
Definition open_air : Event.row :=
  Event.Row "event-2" (Some "open air") (Some "a concert in the park")
            (Some 200%Z) (Some "venue-a") None ∅.

Definition concert_night_stored : Event.row :=
  stored concert_night (event_insert Sample.english concert_night).

Definition open_air_stored : Event.row :=
  stored open_air (event_insert Sample.english open_air).

Definition hit (e : Event.row) (v : Venue.row) : Joined.t :=
  Joined.Make e (Some v) None None.

Definition title_hit : Joined.t := hit concert_night_stored venue_a_stored.
Definition description_hit : Joined.t := hit open_air_stored venue_a_stored.
Definition venue_b_hit : Joined.t := hit concert_night_stored venue_b_stored.

(** The occurrences of a lexeme in an event's search vector. *)
Definition occurrences (l : string) (e : Event.row) : list entry :=
  List.filter (fun o => String.eqb (lexeme o) l)
              (Sql.COALESCE (Event.search_vector e) []).

(** The scenario's request: within 5 miles of (39.77, -86.15), text
    "concert", sorted as [sort] says. *)
Definition near_concert (sort : string) : Request.t :=
  Request.Make None None (Some (Geo.Make 39.77%Q (-86.15)%Q)) 5%Q
               (Some "concert") None None sort.

(** The same without a geographic filter. *)
Definition concert (sort : string) : Request.t :=
  Request.Make None None None 5%Q (Some "concert") None None sort.

(** A database the migrations have not touched yet. *)
Definition before_migrations : database :=
  Database ∅ ∅ ∅ ∅ ∅ ∅ [concert_night; open_air] [venue_a; venue_b].

(** Every filter given. *)
Definition full : Request.t :=
  Request.Make (Some 0%Z) (Some 1000%Z) (Some (Geo.Make 39.77%Q (-86.15)%Q))
               5%Q (Some "concert") (Some 0%Q) (Some 100%Q) "date".

(** Venue B holding a location from the time it had a longitude, in a
    table that has the [location] column already. *)
Definition venue_b_stale : Venue.row :=
  Venue.Row "venue-b" (Some "somewhere") (Some 39.7684%Q) None
            (Some (point_4326 (-86.1581) 39.7684)) None ∅.

Definition stale : database :=
  Database ∅ {[("public.wc_venues", "location")]} ∅ ∅ ∅ ∅ [] [venue_b_stale].

(** [UPDATE wc_venues SET name = 'elsewhere']. *)
Definition set_name_elsewhere : Venue.assignments :=
  Venue.Assign (Some (Some "elsewhere")) None None None None ∅.

(** [UPDATE wc_events SET start_at = 150]. *)
Definition set_start_at : Event.assignments :=
  Event.Assign None None (Some (Some 150%Z)) None None ∅.

(** The decimal numeral of [n]. *)
Definition numeral (n : N) : string :=
  NilEmpty.string_of_uint (N.to_uint n).

(** [count] numerals in a row from [first] on, a space after each. *)
Fixpoint numerals (count : nat) (first : N) : string :=
  match count with
  | O => ""
  | S count => numeral first +:+ " " +:+ numerals count (N.succ first)
  end.

(** An event whose description lists the 200000 numbers from 100000 on:
    1.4 MB of text, and 1.2 MB of lexemes that are all different. *)
Definition long_list : Event.row :=
  Event.Row "event-3" (Some "numbers")
            (Some (numerals (N.to_nat 200000) 100000))
            (Some 300%Z) (Some "venue-a") None ∅.

End Rows.

(* ===================================================================== *)
(** * JavaScript values and processes *)
(* ===================================================================== *)

(** What the snippets of TypeScript and the two Node.js scripts use of the
    language and of the process they run in. *)
Module Node.

(** A number read from a result row: a value or NaN. *)
Inductive number : Type :=
| NaN
| num (q : Q).

(** [parseFloat(v)] on a numeric column of a result row: NaN when the
    object has no such property ([None]) and when the column is NULL
    ([Some None]). *)
Definition parseFloat (v : option (option Q)) : number :=
  match v with
  | Some (Some q) => num q
  | _ => NaN
  end.

(** Truthiness of a nullable number: [null] and [0] are falsy. *)
Definition truthy_number (v : option Q) : bool :=
  match v with
  | Some q => negb (Qeq_bool q 0)
  | None => false
  end.

(** [a || b] on an optional string: [undefined] and the empty string are
    falsy. *)
Definition or_else (a : option string) (b : string) : string :=
  match a with
  | Some s => if String.eqb s "" then b else s
  | None => b
  end.

(** [xs.join(sep)]. *)
Fixpoint join (sep : string) (xs : list string) : string :=
  match xs with
  | [] => ""
  | [x] => x
  | x :: rest => x +:+ sep +:+ join sep rest
  end.

(** [xs.includes(x)]. *)
Definition includes (xs : list string) (x : string) : bool :=
  existsb (String.eqb x) xs.

(** What a script does to the world outside, in the order it does it. *)
Inductive effect : Type :=
| console_log (line : string)
| console_error (line : string)
| child_process (command : string).    (* a command handed to the shell *)

(** How a piece of JavaScript ends. *)
Inductive completion (T : Type) : Type :=
| normal (v : T)
| throw (message : string)             (* an Error with this message *)
| exit (code : Z).                     (* process.exit(code) *)

Arguments normal {T} v.
Arguments throw {T} message.
Arguments exit {T} code.

(** A computation: its effects and how it ended. Nothing runs after a
    [throw] that is not caught, or after an [exit]. *)
Definition js (T : Type) : Type := (list effect * completion T)%type.

#[global] Instance js_ret : MRet js := fun _ v => ([], normal v).
#[global] Instance js_bind : MBind js :=
  fun _ _ f m =>
    match m with
    | (done, normal v) => let (more, c) := f v in (done ++ more, c)
    | (done, throw e) => (done, throw e)
    | (done, exit code) => (done, exit code)
    end.

(** [try { body } catch (error) { handler(error.message) }]. *)
Definition try_catch {T : Type} (body : js T) (handler : string -> js T)
  : js T :=
  match body with
  | (done, throw e) => let (more, c) := handler e in (done ++ more, c)
  | other => other
  end.

(** The process a script runs in: its [process.argv], and what becomes of
    a command given to [execSync]: [None] when it exits with status 0, the
    message of the Error that [execSync] throws otherwise. *)
Record process : Type := Process {
  argv : list string;
  shell : string -> option string
}.

Definition log (line : string) : js unit := ([console_log line], normal tt).

Definition error (line : string) : js unit :=
  ([console_error line], normal tt).

Definition process_exit {T : Type} (code : Z) : js T := ([], exit code).

Definition execSync (p : process) (command : string) : js unit :=
  ([child_process command],
   match shell p command with
   | None => normal tt
   | Some message => throw message
   end).

(** The object [{}]: what [require] gives for a module that assigns
    nothing to [module.exports]. *)
Inductive empty_object : Type :=
| Empty_object.

(** An absolute POSIX path: its segments below the root. *)
Definition path : Type := list string.

(** [path.normalize]: [.] and empty segments go, [..] takes the segment
    before it away and stays at the root when there is none. *)
Definition normalize (p : path) : path :=
  rev (fold_left
         (fun seen segment =>
            if String.eqb segment ".." then tail seen
            else if String.eqb segment "." || String.eqb segment "" then seen
            else segment :: seen)
         p []).

(** [path.join(dir, ...segments)], as the string it returns. *)
Definition path_join (dir : path) (segments : list string) : string :=
  "/" +:+ join "/" (normalize (dir ++ segments)).

(** The double-quote character of a template literal. *)
Definition quote : string := String "034"%char EmptyString.

(** The commands a run handed to the shell. *)
Definition executed {T : Type} (run : js T) : list string :=
  omap (fun e => match e with child_process c => Some c | _ => None end)
       (fst run).

(** The command exits with status 0. *)
Definition succeeds (p : process) (command : string) : bool :=
  Sql.IS_NULL (shell p command).

End Node.

(* ===================================================================== *)
(** * The distance a search reports *)
(* ===================================================================== *)

Section DistanceColumn.

Variable ST_Distance : geography -> geography -> Q.

(** The column the SELECT list gains under a geographic filter:
<<
  ${geoLocation ? `,
    ST_Distance(
      v.location,
      ST_SetSRID(ST_MakePoint($lon_param, $lat_param), 4326)::geography
    ) / 1609.34 as distance_miles
  ` : ""}
>>
    [$lon_param] and [$lat_param] stand for the parameters that carry
    [geoLocation.lon] and [geoLocation.lat]. The result is [None] when the
    column is not selected and [Some None] when it is NULL. *)
Definition distance_miles (geoLocation : option Geo.t) (row : Joined.t)
  : option (option Q) :=
  match geoLocation with
  | Some g =>
      Some (Sql.strict2 (fun l c => (ST_Distance l c / 1609.34)%Q)
              (Joined.v_location row)
              (Some (point_4326 (Geo.lon g) (Geo.lat g))))
  | None => None
  end.

(** [row.distance_miles] as a nullable value. *)
Definition reported_distance (r : Request.t) (row : Joined.t) : option Q :=
  match distance_miles (Request.geoLocation r) row with
  | Some d => d
  | None => None
  end.

End DistanceColumn.

(** The result mapping:
<<
  distanceMiles: geoLocation && row.venue_lat && row.venue_lon
    ? parseFloat(row.distance_miles)
    : undefined,
>>
    [venue_lat] and [venue_lon] are numbers or null ([lat] and [lon] are
    double precision columns); [None] is [undefined]. *)
Definition distanceMiles (geoLocation : option Geo.t)
    (venue_lat venue_lon : option Q) (distance_miles : option (option Q))
  : option Node.number :=
  if Sql.IS_NOT_NULL geoLocation && Node.truthy_number venue_lat
     && Node.truthy_number venue_lon
  then Some (Node.parseFloat distance_miles)
  else None.

(** The rows the partial index [idx_wc_events_start_at] holds:
    [ON public.wc_events (start_at) WHERE start_at IS NOT NULL]. *)
Definition in_idx_wc_events_start_at (e : Event.row) : bool :=
  Sql.IS_NOT_NULL (Event.start_at e).

(** The clause without [v.location IS NOT NULL], as the "Finding Nearby
    Items" query of the guide filters: by [ST_DWithin] alone. *)
Definition without_location_check (cs : list conjunct) : list conjunct :=
  List.filter
    (fun c => match c with location_is_not_null => false | _ => true end) cs.

(* ===================================================================== *)
(** * The queries the migrations and the guide run by hand *)
(* ===================================================================== *)

(** What a SELECT can fail with. *)
Inductive query_error : Type :=
| division_by_zero
| undefined_column (table column : string).

(** The answer of a SELECT. *)
Inductive answer (T : Type) : Type :=
| Returns (v : T)
| Fails (e : query_error).

Arguments Returns {T} v.
Arguments Fails {T} e.

#[global] Instance answer_ret : MRet answer := fun _ v => Returns v.
#[global] Instance answer_bind : MBind answer :=
  fun _ _ f r => match r with Returns v => f v | Fails e => Fails e end.

(** The rows of a table, for a query that names one of the columns the
    migrations add. *)
Definition FROM {R : Type} (db : database) (table column : string)
    (rows : database -> list R) : answer (list R) :=
  if has_column db table column then Returns (rows db)
  else Fails (undefined_column table column).

(** [COUNT( * )], and [COUNT(column)], which counts the rows where the
    column is not NULL. *)
Definition COUNT_all {R : Type} (rows : list R) : nat := length rows.

Definition COUNT {R T : Type} (column : R -> option T) (rows : list R) : nat :=
  length (List.filter (fun r => Sql.IS_NOT_NULL (column r)) rows).

(** A [bigint] as a numeric. *)
Definition bigint (n : nat) : Q := inject_Z (Z.of_nat n).

(** [a / b] on numerics. *)
Definition numeric_div (a b : Q) : answer Q :=
  if Qeq_bool b 0 then Fails division_by_zero else Returns (a / b)%Q.

(** A row of the "are the columns populated" queries. *)
Module Populated.
Record row : Type := Row {
  table_name : string;
  total : nat;
  with_value : nat;
  percentage : Q
}.
End Populated.

(** [SELECT 'table', COUNT( * ), COUNT(column),
    COUNT(column) * 100.0 / COUNT( * ) FROM table]. *)
Definition populated {R T : Type} (table : string) (column : R -> option T)
    (rows : list R) : answer Populated.row :=
  percentage ← numeric_div (bigint (COUNT column rows) * 100.0)%Q
                           (bigint (COUNT_all rows));
  mret (Populated.Row table (COUNT_all rows) (COUNT column rows) percentage).


(** The first verification query of the PostGIS migration:
<<
  SELECT COUNT( * ) as total_venues, COUNT(location) as venues_with_location,
         COUNT(location) * 100.0 / COUNT( * ) as percentage_complete
  FROM public.wc_venues;
>> *)
Definition check_venues_with_location (db : database) : answer Populated.row :=
  venues ← FROM db "public.wc_venues" "location" wc_venues;
  populated "wc_venues" Venue.location venues.

(** POSTGIS_SETUP.md, "NULL Locations?", find venues without geography:
<<
  SELECT COUNT( * ) as missing_location FROM wc_venues
  WHERE location IS NULL AND (lat IS NOT NULL OR lon IS NOT NULL);
>> *)
Definition missing_location (db : database) : answer nat :=
  venues ← FROM db "public.wc_venues" "location" wc_venues;
  mret (COUNT_all
          (List.filter
             (fun v => Sql.IS_NULL (Venue.location v) &&
                       (Sql.IS_NOT_NULL (Venue.lat v) ||
                        Sql.IS_NOT_NULL (Venue.lon v)))
             venues)).

(** "Fix them":
<<
  UPDATE wc_venues
  SET location = ST_SetSRID(ST_MakePoint(lon, lat), 4326)::geography
  WHERE location IS NULL AND lat IS NOT NULL AND lon IS NOT NULL;
>> *)
Definition fix_missing_locations : statement :=
  UPDATE_wc_venues "location"
    (fun r => Venue.with_location
                (Sql.strict2 point_4326 (Venue.lon r) (Venue.lat r)) r)
    (fun r => Sql.IS_NULL (Venue.location r) && Sql.IS_NOT_NULL (Venue.lat r)
              && Sql.IS_NOT_NULL (Venue.lon r)).

(** A venue with exactly one of its two coordinates. *)
Definition one_coordinate (v : Venue.row) : bool :=
  xorb (Sql.IS_NOT_NULL (Venue.lat v)) (Sql.IS_NOT_NULL (Venue.lon v)).

(** [LIMIT n]. *)
Definition LIMIT {R : Type} (n : nat) (rows : list R) : list R := take n rows.

(** [ORDER BY key ASC]: a row may stand before another; NULL last. *)
Definition ascending {R : Type} (key : R -> option Q) : relation R :=
  fun a b => value_le (key a) (key b) = true.

(** [ORDER BY key DESC]: NULL first. *)
Definition descending {R : Type} (key : R -> option Q) : relation R :=
  fun a b => value_le (key b) (key a) = true.

#[global] Instance ascending_dec {R : Type} (key : R -> option Q) (a b : R) :
  Decision (ascending key a b).
Proof. unfold ascending. apply _. Defined.

#[global] Instance descending_dec {R : Type} (key : R -> option Q) (a b : R) :
  Decision (descending key a b).
Proof. unfold descending. apply _. Defined.

(** A row of the test distance query. *)
Module Nearby.
Record row : Type := Row {
  id : string;
  name : option string;
  lat : option Q;
  lon : option Q;
  distance_miles : option Q
}.
End Nearby.

(** A row of the test full-text query. *)
Module Ranked.
Record row : Type := Row {
  id : string;
  title : option string;
  rank : option Q
}.
End Ranked.

Section TestQueries.

Variable english : ts_config.
Variable ST_Distance : geography -> geography -> Q.
Variable ts_rank : tsvector -> tsquery -> Q.

(** [ST_SetSRID(ST_MakePoint(-86.1581::numeric, 39.7684::numeric),
    4326)::geography]. *)
Definition indianapolis : geography := point_4326 (-86.1581) 39.7684.

(** [WHERE location IS NOT NULL
      AND ST_DWithin(location, indianapolis, 40234)]. *)
Definition within_25_miles (v : Venue.row) : Sql.truth :=
  Sql.AND (Some (Sql.IS_NOT_NULL (Venue.location v)))
          (ST_DWithin ST_Distance (Venue.location v) (Some indianapolis)
                      (Some 40234%Q)).

(** [SELECT id, name, lat, lon,
      ST_Distance(location, indianapolis) / 1609.34 as distance_miles]. *)
Definition nearby (v : Venue.row) : Nearby.row :=
  Nearby.Row (Venue.id v) (Venue.name v) (Venue.lat v) (Venue.lon v)
    (Sql.strict2 (fun l c => (ST_Distance l c / 1609.34)%Q)
                 (Venue.location v) (Some indianapolis)).

(** The test distance query, [... ORDER BY distance_miles LIMIT limit]:
    the migration runs it with LIMIT 5, the guide with LIMIT 10 and 20. *)
Definition test_distance_query (limit : nat) (venues : list Venue.row)
  : list Nearby.row :=
  LIMIT limit
    (merge_sort (ascending Nearby.distance_miles)
       (map nearby
            (List.filter (fun v => Sql.holds (within_25_miles v)) venues))).

(** [SELECT id, title,
      ts_rank(search_vector, to_tsquery('english', 'concerts')) as rank]. *)
Definition ranked (e : Event.row) : Ranked.row :=
  Ranked.Row (Event.id e) (Event.title e)
    (Sql.strict2 ts_rank (Event.search_vector e)
                 (Some (to_tsquery english "concerts"))).

(** The test full-text query:
    [... WHERE search_vector @@ to_tsquery('english', 'concerts')
     ORDER BY rank DESC LIMIT 10]. *)
Definition test_full_text_search (events : list Event.row) : list Ranked.row :=
  LIMIT 10
    (merge_sort (descending Ranked.rank)
       (map ranked
            (List.filter
               (fun e => Sql.holds (matches english (Event.search_vector e)
                                            (Some "concerts")))
               events))).

End TestQueries.

(* ===================================================================== *)
(** * The Node.js scripts *)
(* ===================================================================== *)

(** scripts/client.js; [__dirname] is the directory of the script:
<<
  const schemaPath = path.join(__dirname, "..", "prisma", "schema.prisma");
  console.log("🔧 Generating Prisma client...");
  console.log(`📁 Schema path: ${schemaPath}`);
  try {
    execSync(`npx prisma generate --schema="${schemaPath}"`, {...});
    console.log("✅ Prisma client generated successfully!");
    console.log("📦 Client available at: node_modules/.prisma/client");
  } catch (error) {
    console.error("❌ Failed to generate Prisma client:", error.message);
    process.exit(1);
  }
>> *)
Definition client (p : Node.process) (__dirname : Node.path)
  : Node.js Node.empty_object :=
  let schemaPath :=
    Node.path_join __dirname [".."; "prisma"; "schema.prisma"] in
  Node.log "🔧 Generating Prisma client...";;
  Node.log ("📁 Schema path: " +:+ schemaPath);;
  Node.try_catch
    (Node.execSync p ("npx prisma generate --schema=" +:+ Node.quote
                      +:+ schemaPath +:+ Node.quote);;
     Node.log "✅ Prisma client generated successfully!";;
     Node.log "📦 Client available at: node_modules/.prisma/client")
    (fun message =>
       Node.error ("❌ Failed to generate Prisma client: " +:+ message);;
       Node.process_exit 1);;
  mret Node.Empty_object.

Definition validCommands : list string :=
  ["dev"; "deploy"; "reset"; "status"; "resolve"].

(** [process.argv[2] || "dev"] and [process.argv.slice(3)]. *)
Definition command (p : Node.process) : string :=
  Node.or_else (Node.argv p !! 2%nat) "dev".

Definition args (p : Node.process) : list string := drop 3 (Node.argv p).

(** [`npx prisma migrate ${command} --schema="${schemaPath}"
      ${args.join(" ")}`]. *)
Definition fullCommand (p : Node.process) (schemaPath : string) : string :=
  "npx prisma migrate " +:+ command p +:+ " --schema=" +:+ Node.quote
  +:+ schemaPath +:+ Node.quote +:+ " " +:+ Node.join " " (args p).

(** scripts/migrate.js:
<<
  console.log("🔄 Running database migration...");
  console.log(`📁 Schema path: ${schemaPath}`);
  console.log(`🎯 Command: migrate ${command}`);
  if (!validCommands.includes(command)) {
    console.error(`❌ Invalid command: ${command}`);
    console.error(`Valid commands: ${validCommands.join(", ")}`);
    process.exit(1);
  }
  try {
    const fullCommand = ...;
    console.log(`🚀 Executing: ${fullCommand}`);
    execSync(fullCommand, {...});
    console.log("✅ Migration completed successfully!");
  } catch (error) {
    console.error("❌ Migration failed:", error.message);
    process.exit(1);
  }
>> *)
Definition migrate (p : Node.process) (__dirname : Node.path)
  : Node.js Node.empty_object :=
  let schemaPath :=
    Node.path_join __dirname [".."; "prisma"; "schema.prisma"] in
  let command := command p in
  Node.log "🔄 Running database migration...";;
  Node.log ("📁 Schema path: " +:+ schemaPath);;
  Node.log ("🎯 Command: migrate " +:+ command);;
  (if negb (Node.includes validCommands command) then
     Node.error ("❌ Invalid command: " +:+ command);;
     Node.error ("Valid commands: " +:+ Node.join ", " validCommands);;
     Node.process_exit 1
   else mret tt);;
  Node.try_catch
    (let fullCommand := fullCommand p schemaPath in
     Node.log ("🚀 Executing: " +:+ fullCommand);;
     Node.execSync p fullCommand;;
     Node.log "✅ Migration completed successfully!")
    (fun message =>
       Node.error ("❌ Migration failed: " +:+ message);;
       Node.process_exit 1);;
  mret Node.Empty_object.

(** [module.exports] of index.js. *)
Module Exports.
Record t : Type := Make {
  schemaPath : string;
  generateClient : Node.empty_object;
  runMigration : Node.empty_object
}.
End Exports.

(** index.js; [__dirname] is the directory of the package, the two
    scripts are in its [scripts] directory, and [require] runs a module and
    gives its [module.exports]:
<<
  const schemaPath = path.join(__dirname, "prisma", "schema.prisma");
  module.exports = {
    schemaPath,
    generateClient: require("./scripts/client"),
    runMigration: require("./scripts/migrate"),
  };
>> *)
Definition index_js (p : Node.process) (__dirname : Node.path)
  : Node.js Exports.t :=
  let schemaPath := Node.path_join __dirname ["prisma"; "schema.prisma"] in
  generateClient ← client p (__dirname ++ ["scripts"]);
  runMigration ← migrate p (__dirname ++ ["scripts"]);
  mret (Exports.Make schemaPath generateClient runMigration).

(* ===================================================================== *)
(** * Tables to evaluate the queries on *)
(* ===================================================================== *)

Module Tables.

(** The two venues of the scenario as the triggers stored them, in a
    table that has the [location] column. *)
Definition maintained_venues : database :=
  Database ∅ {[("public.wc_venues", "location")]} ∅ ∅ ∅ ∅ []
           [Rows.venue_a_stored; Rows.venue_b_stored].

(** The database of the scenario after the PostGIS and the text-search
    migrations. *)
Definition migrated : database :=
  run (text_search_migration Sample.english)
      (run postgis_migration Rows.before_migrations).

(** A search near the centre of the scenario, sorted by distance. *)
Definition nearest_first : Request.t := Rows.near_concert "distance".

(** A search by date alone. *)
Definition in_range_of_dates : Request.t :=
  Request.Make (Some 0%Z) (Some 1000%Z) None 5%Q None None None "date".

(** A search for a word of the name of Venue A. *)
Definition stadium : Request.t :=
  Request.Make None None None 5%Q (Some "stadium") None None "date".

End Tables.

(* ===================================================================== *)
(** * Properties of the trigger functions *)
(* ===================================================================== *)

Lemma update_venue_location_eq (NEW : Venue.row) :
  update_venue_location NEW
  = Ok (Venue.with_location (derived_location NEW) NEW).
Proof.
  unfold update_venue_location, derived_location.
  destruct NEW as [i n [la|] [lo|] l sv rs]; reflexivity.
Qed.

Lemma derived_location_present (v : Venue.row) :
  Sql.IS_NOT_NULL (derived_location v)
  = Sql.IS_NOT_NULL (Venue.lat v) && Sql.IS_NOT_NULL (Venue.lon v).
Proof.
  unfold derived_location.
  destruct (Venue.lat v), (Venue.lon v); reflexivity.
Qed.

(** The location trigger fires on an UPDATE exactly when the SET list names
    [lat] or [lon]. *)
Lemma fires_location_update (s : Venue.assignments) :
  fires trigger_update_venue_location (UPDATE (Venue.targets s))
  = Sql.IS_NOT_NULL (Venue.set_lat s) || Sql.IS_NOT_NULL (Venue.set_lon s).
Proof.
  destruct s as [[?|] [?|] [?|] [?|] [?|] ?]; reflexivity.
Qed.

(** C1 (as amended). For every pair of non-null coordinates, inside the
    ranges [-90, 90] and [-180, 180] or outside them,
    [update_venue_location] returns the row with the point built from
    them and raises nothing: the function has no range check. *)
Theorem update_venue_location_returns_point
    (NEW : Venue.row) (lat lon : Q) :
  Venue.lat NEW = Some lat ->
  Venue.lon NEW = Some lon ->
  update_venue_location NEW
  = Ok (Venue.with_location (Some (point_4326 lon lat)) NEW).
Proof.
  intros Hlat Hlon.
  rewrite update_venue_location_eq.
  unfold derived_location. rewrite Hlat, Hlon. reflexivity.
Qed.

Lemma update_venue_location_returns_point_witness :
  update_venue_location Rows.venue_a
  = Ok (Venue.with_location
          (Some (point_4326 (-86.1581)%Q 39.7684%Q)) Rows.venue_a).
Proof.
  apply (update_venue_location_returns_point Rows.venue_a); reflexivity.
Defined.

(** C1, as stated, fails: latitude 91 is out of range, and the function
    returns a row holding a point. *)
Lemma update_venue_location_out_of_range :
  in_range 91%Q 0%Q = false /\
  update_venue_location Rows.venue_north
  = Ok (Venue.with_location (Some (point_4326 0%Q 91%Q)) Rows.venue_north).
Proof. split; reflexivity. Qed.

Section TriggerProperties.

Variable english : ts_config.

Lemma venue_before_row_eq (op : tg_op) (NEW : Venue.row) :
  venue_before_row english op NEW = Ok (venue_after_triggers english op NEW).
Proof.
  unfold venue_before_row, venue_after_triggers, venue_after_location,
    before_row.
  destruct (fires trigger_update_venue_location op).
  - rewrite update_venue_location_eq. simpl.
    destruct (fires trigger_update_venue_search_vector op); reflexivity.
  - simpl. destruct (fires trigger_update_venue_search_vector op); reflexivity.
Qed.

Lemma venue_after_triggers_coordinates (op : tg_op) (NEW : Venue.row) :
  Venue.lat (venue_after_triggers english op NEW) = Venue.lat NEW /\
  Venue.lon (venue_after_triggers english op NEW) = Venue.lon NEW.
Proof.
  unfold venue_after_triggers, venue_after_location.
  destruct (fires trigger_update_venue_location op),
           (fires trigger_update_venue_search_vector op); split; reflexivity.
Qed.

Lemma venue_after_triggers_location (op : tg_op) (NEW : Venue.row) :
  Venue.location (venue_after_triggers english op NEW)
  = if fires trigger_update_venue_location op
    then derived_location NEW else Venue.location NEW.
Proof.
  unfold venue_after_triggers, venue_after_location.
  destruct (fires trigger_update_venue_location op),
           (fires trigger_update_venue_search_vector op); reflexivity.
Qed.

Lemma derived_location_after_triggers (op : tg_op) (NEW : Venue.row) :
  derived_location (venue_after_triggers english op NEW) = derived_location NEW.
Proof.
  unfold derived_location.
  destruct (venue_after_triggers_coordinates op NEW) as [-> ->].
  reflexivity.
Qed.

(** An INSERT always leaves the location in step with the coordinates. *)
Lemma venue_insert_location (NEW v : Venue.row) :
  venue_insert english NEW = Ok v ->
  Venue.location v = derived_location v.
Proof.
  unfold venue_insert. rewrite venue_before_row_eq.
  intros [= <-].
  rewrite derived_location_after_triggers, venue_after_triggers_location.
  reflexivity.
Qed.

(** An UPDATE that does not write [location] directly keeps it in step. *)
Lemma venue_update_location (s : Venue.assignments) (OLD v : Venue.row) :
  Venue.location OLD = derived_location OLD ->
  writes_location_directly s = false ->
  venue_update english s OLD = Ok v ->
  Venue.location v = derived_location v.
Proof.
  unfold venue_update, writes_location_directly.
  rewrite venue_before_row_eq. intros Hold Hdirect [= <-].
  rewrite derived_location_after_triggers, venue_after_triggers_location.
  destruct (fires trigger_update_venue_location (UPDATE (Venue.targets s)))
    eqn:Hfires; [reflexivity|].
  rewrite fires_location_update in Hfires.
  destruct s as [sn sla slo sl ssv srs]; simpl in *.
  destruct sla; [discriminate|]. destruct slo; [discriminate|].
  destruct sl; [discriminate|].
  unfold derived_location in *. simpl. exact Hold.
Qed.

(** The migration leaves the rows it found in step. *)
Lemma migrated_location (r : Venue.row) :
  Venue.location (migrated r) = derived_location (migrated r).
Proof.
  unfold migrated, backfilled_location, derived_location.
  destruct r as [i n [la|] [lo|] l sv rs]; reflexivity.
Qed.

Lemma maintained_location (v : Venue.row) :
  maintained english v -> Venue.location v = derived_location v.
Proof.
  induction 1 as [r | NEW v Hins | s OLD v _ IH Hdirect Hupd].
  - apply migrated_location.
  - eapply venue_insert_location; eassumption.
  - eapply venue_update_location; eassumption.
Qed.

(** A write that sets a coordinate to NULL clears the location. *)
Lemma venue_update_clears (s : Venue.assignments) (OLD v : Venue.row) :
  Venue.set_lat s = Some None \/ Venue.set_lon s = Some None ->
  venue_update english s OLD = Ok v ->
  Venue.location v = None.
Proof.
  unfold venue_update. rewrite venue_before_row_eq. intros Hnull [= <-].
  rewrite venue_after_triggers_location, fires_location_update.
  destruct s as [sn sla slo sl ssv srs]; simpl in *.
  unfold derived_location; simpl.
  destruct Hnull as [-> | ->]; simpl.
  - destruct (Sql.COALESCE slo (Venue.lon OLD)); reflexivity.
  - rewrite orb_true_r. reflexivity.
Qed.

End TriggerProperties.

(** C2, as stated, fails: [UPDATE wc_venues SET location = NULL] names
    neither [lat] nor [lon], so the trigger does not fire, and the stored
    row has both coordinates and no location. *)
Lemma location_cleared_by_direct_write :
  exists v : Venue.row,
    reachable Sample.english v /\
    Venue.lat v = Some 39.7684%Q /\
    Venue.lon v = Some (-86.1581)%Q /\
    Venue.location v = None.
Proof.
  exists (Rows.stored Rows.venue_a_stored
            (venue_update Sample.english Rows.set_location_null
                          Rows.venue_a_stored)).
  split; [|repeat split].
  eapply reach_update with (s := Rows.set_location_null)
                           (OLD := Rows.venue_a_stored).
  - eapply reach_insert with (NEW := Rows.venue_a). reflexivity.
  - reflexivity.
Qed.

(* --------------------------------------------------------------------- *)
(** ** The search vectors *)
(* --------------------------------------------------------------------- *)

Lemma setweight_weights (v : tsvector) (w : Weight.t) :
  Forall (fun e => weight e = w) (setweight v w).
Proof.
  unfold setweight. induction v as [|e v IH]; simpl; constructor; auto.
Qed.

Lemma setweight_lexemes (v : tsvector) (w : Weight.t) :
  map lexeme (setweight v w) = map lexeme v.
Proof.
  unfold setweight. induction v as [|e v IH]; simpl; congruence.
Qed.

Lemma to_tsvector_weights (cfg : ts_config) (doc : string) :
  Forall (fun e => weight e = Weight.D) (to_tsvector cfg doc).
Proof.
  unfold to_tsvector.
  induction (parse_document cfg doc) as [|lp l IH]; simpl; constructor; auto.
Qed.

Lemma to_tsvector_lexemes (cfg : ts_config) (doc : string) :
  map lexeme (to_tsvector cfg doc) = map fst (parse_document cfg doc).
Proof.
  unfold to_tsvector.
  induction (parse_document cfg doc) as [|lp l IH]; simpl; congruence.
Qed.

Lemma shifted_weights (n : nat) (v : tsvector) (w : Weight.t) :
  Forall (fun e => weight e = w) v ->
  Forall (fun e => weight e = w)
         (map (fun e => Entry (lexeme e) (n + position e) (weight e)) v).
Proof.
  induction 1 as [|e v He _ IH]; simpl; constructor; auto.
Qed.

Lemma shifted_lexemes (n : nat) (v : tsvector) :
  map lexeme (map (fun e => Entry (lexeme e) (n + position e) (weight e)) v)
  = map lexeme v.
Proof.
  induction v as [|e v IH]; simpl; congruence.
Qed.

Section SearchVectorProperties.

Variable english : ts_config.

(** C4 (as amended). In the vector derived for an event, the lexemes of
    the title come first and all carry label A, the lexemes of the
    description follow and all carry label B, and A weighs more than B. The
    vector derived for a venue is not labelled: every lexeme of the name
    carries the default label D, which weighs less than B. *)
Theorem search_vector_weights :
  (forall title description : option string,
     exists primary secondary : tsvector,
       event_search_vector english title description = primary ++ secondary /\
       map lexeme primary
       = map fst (parse_document english (Sql.COALESCE title "")) /\
       map lexeme secondary
       = map fst (parse_document english (Sql.COALESCE description "")) /\
       Forall (fun e => weight e = Weight.A) primary /\
       Forall (fun e => weight e = Weight.B) secondary) /\
  Weight.heavier Weight.A Weight.B = true /\
  (forall name : option string,
     map lexeme (venue_search_vector english name)
     = map fst (parse_document english (Sql.COALESCE name "")) /\
     Forall (fun e => weight e = Weight.D) (venue_search_vector english name)) /\
  Weight.heavier Weight.B Weight.D = true.
Proof.
  repeat split.
  - intros title description.
    unfold event_search_vector, tsvector_concat.
    eexists _, _. split; [reflexivity|]. repeat split.
    + rewrite setweight_lexemes. apply to_tsvector_lexemes.
    + rewrite shifted_lexemes, setweight_lexemes. apply to_tsvector_lexemes.
    + apply setweight_weights.
    + apply shifted_weights, setweight_weights.
  - apply to_tsvector_lexemes.
  - apply to_tsvector_weights.
Qed.

(** C9. Each trigger function returns [NEW] with its own derived column
    assigned and every other column as it was: [update_venue_location]
    writes [location] only, the two search-vector functions write
    [search_vector] only. The same holds of the row a write stores: the
    triggers change no column but [location] and [search_vector]. *)
Theorem triggers_write_only_their_column :
  (forall NEW : Venue.row,
     exists NEW' : Venue.row,
       update_venue_location NEW = Ok NEW' /\
       Venue.same_but_location NEW NEW') /\
  (forall NEW : Venue.row,
     exists NEW' : Venue.row,
       update_venue_search_vector english NEW = Ok NEW' /\
       Venue.same_but_search_vector NEW NEW') /\
  (forall NEW : Event.row,
     exists NEW' : Event.row,
       update_event_search_vector english NEW = Ok NEW' /\
       Event.same_but_search_vector NEW NEW') /\
  (forall (op : tg_op) (NEW : Venue.row),
     exists NEW' : Venue.row,
       venue_before_row english op NEW = Ok NEW' /\
       Venue.id NEW' = Venue.id NEW /\ Venue.name NEW' = Venue.name NEW /\
       Venue.lat NEW' = Venue.lat NEW /\ Venue.lon NEW' = Venue.lon NEW /\
       Venue.rest NEW' = Venue.rest NEW).
Proof.
  repeat apply conj.
  - intros NEW. eexists. split; [apply update_venue_location_eq|].
    destruct NEW; repeat split.
  - intros NEW. eexists. split; [reflexivity|]. destruct NEW; repeat split.
  - intros NEW. eexists. split; [reflexivity|]. destruct NEW; repeat split.
  - intros op NEW. eexists. split; [apply venue_before_row_eq|].
    unfold venue_after_triggers, venue_after_location.
    destruct (fires trigger_update_venue_location op),
             (fires trigger_update_venue_search_vector op);
      destruct NEW; repeat split.
Qed.

End SearchVectorProperties.

Section SearchVectorLimits.

Variable english : ts_config.
Variable fits : tsvector -> bool.

Lemma event_search_vector_limited_eq (title description : option string) :
  event_search_vector_limited english fits title description
  = if event_vectors_fit english fits title description
    then Ok (event_search_vector english title description)
    else Err (program_limit_exceeded "string is too long for tsvector").
Proof.
  unfold event_search_vector_limited, event_vectors_fit,
    to_tsvector_limited, tsvector_concat_limited, within_limit,
    event_search_vector.
  destruct (fits (to_tsvector english (Sql.COALESCE title "")));
    [|reflexivity].
  destruct (fits (to_tsvector english (Sql.COALESCE description "")));
    reflexivity.
Qed.

Lemma update_event_search_vector_limited_eq (NEW : Event.row) :
  update_event_search_vector_limited english fits NEW
  = if event_vectors_fit english fits (Event.title NEW)
                         (Event.description NEW)
    then update_event_search_vector english NEW
    else Err (program_limit_exceeded "string is too long for tsvector").
Proof.
  unfold update_event_search_vector_limited.
  rewrite event_search_vector_limited_eq.
  destruct (event_vectors_fit english fits (Event.title NEW)
                              (Event.description NEW)); reflexivity.
Qed.

Lemma update_venue_search_vector_limited_eq (NEW : Venue.row) :
  update_venue_search_vector_limited english fits NEW
  = if venue_vector_fits english fits (Venue.name NEW)
    then update_venue_search_vector english NEW
    else Err (program_limit_exceeded "string is too long for tsvector").
Proof.
  unfold update_venue_search_vector_limited, venue_search_vector_limited,
    to_tsvector_limited, within_limit, venue_vector_fits,
    venue_search_vector.
  destruct (fits (to_tsvector english (Sql.COALESCE (Venue.name NEW) "")));
    reflexivity.
Qed.

(** C8 (as amended). Deriving a search vector is a function of the text
    columns alone, with NULL read as the empty string. It returns the row
    with the vector of its text whenever the vectors it builds fit in the
    size a tsvector can have, and deriving again from the row just derived
    then changes nothing; it fails with [program_limit_exceeded] otherwise.
    Two rows with the same text columns get the same outcome: the same
    vector or the same error. *)
Theorem search_vector_derivation_within_limit :
  (forall NEW : Event.row,
     event_vectors_fit english fits (Event.title NEW) (Event.description NEW)
     = true ->
     exists NEW' : Event.row,
       update_event_search_vector_limited english fits NEW = Ok NEW' /\
       Event.search_vector NEW'
       = Some (event_search_vector english (Event.title NEW)
                                           (Event.description NEW)) /\
       update_event_search_vector_limited english fits NEW' = Ok NEW') /\
  (forall NEW : Event.row,
     event_vectors_fit english fits (Event.title NEW) (Event.description NEW)
     = false ->
     update_event_search_vector_limited english fits NEW
     = Err (program_limit_exceeded "string is too long for tsvector")) /\
  (forall NEW : Venue.row,
     venue_vector_fits english fits (Venue.name NEW) = true ->
     exists NEW' : Venue.row,
       update_venue_search_vector_limited english fits NEW = Ok NEW' /\
       Venue.search_vector NEW'
       = Some (venue_search_vector english (Venue.name NEW)) /\
       update_venue_search_vector_limited english fits NEW' = Ok NEW') /\
  (forall NEW : Venue.row,
     venue_vector_fits english fits (Venue.name NEW) = false ->
     update_venue_search_vector_limited english fits NEW
     = Err (program_limit_exceeded "string is too long for tsvector")) /\
  (forall NEW1 NEW2 : Event.row,
     Event.title NEW1 = Event.title NEW2 ->
     Event.description NEW1 = Event.description NEW2 ->
     (forall NEW1' : Event.row,
        update_event_search_vector_limited english fits NEW1 = Ok NEW1' ->
        exists NEW2' : Event.row,
          update_event_search_vector_limited english fits NEW2 = Ok NEW2' /\
          Event.search_vector NEW1' = Event.search_vector NEW2') /\
     (forall e : pg_error,
        update_event_search_vector_limited english fits NEW1 = Err e ->
        update_event_search_vector_limited english fits NEW2 = Err e)) /\
  (forall NEW1 NEW2 : Venue.row,
     Venue.name NEW1 = Venue.name NEW2 ->
     (forall NEW1' : Venue.row,
        update_venue_search_vector_limited english fits NEW1 = Ok NEW1' ->
        exists NEW2' : Venue.row,
          update_venue_search_vector_limited english fits NEW2 = Ok NEW2' /\
          Venue.search_vector NEW1' = Venue.search_vector NEW2') /\
     (forall e : pg_error,
        update_venue_search_vector_limited english fits NEW1 = Err e ->
        update_venue_search_vector_limited english fits NEW2 = Err e)) /\
  (forall description : option string,
     event_search_vector_limited english fits None description
     = event_search_vector_limited english fits (Some "") description) /\
  (forall title : option string,
     event_search_vector_limited english fits title None
     = event_search_vector_limited english fits title (Some "")) /\
  venue_search_vector_limited english fits None
  = venue_search_vector_limited english fits (Some "").
Proof.
  repeat apply conj; try reflexivity.
  - intros NEW Hfits.
    exists (Event.with_search_vector
              (Some (event_search_vector english (Event.title NEW)
                                         (Event.description NEW))) NEW).
    rewrite !update_event_search_vector_limited_eq.
    destruct NEW as [i t d s v sv rs]; simpl in *. rewrite Hfits.
    repeat split.
  - intros NEW Hfits. rewrite update_event_search_vector_limited_eq, Hfits.
    reflexivity.
  - intros NEW Hfits.
    exists (Venue.with_search_vector
              (Some (venue_search_vector english (Venue.name NEW))) NEW).
    rewrite !update_venue_search_vector_limited_eq.
    destruct NEW as [i n la lo l sv rs]; simpl in *. rewrite Hfits.
    repeat split.
  - intros NEW Hfits. rewrite update_venue_search_vector_limited_eq, Hfits.
    reflexivity.
  - intros NEW1 NEW2 Htitle Hdescription.
    rewrite !update_event_search_vector_limited_eq.
    rewrite <- Htitle, <- Hdescription.
    destruct (event_vectors_fit english fits (Event.title NEW1)
                                (Event.description NEW1)); split.
    + intros NEW1' [= <-]. eexists. split; [reflexivity|].
      simpl. rewrite Htitle, Hdescription. reflexivity.
    + discriminate.
    + discriminate.
    + intros e He. exact He.
  - intros NEW1 NEW2 Hname.
    rewrite !update_venue_search_vector_limited_eq.
    rewrite <- Hname.
    destruct (venue_vector_fits english fits (Venue.name NEW1)); split.
    + intros NEW1' [= <-]. eexists. split; [reflexivity|].
      simpl. rewrite Hname. reflexivity.
    + discriminate.
    + discriminate.
    + intros e He. exact He.
Qed.

End SearchVectorLimits.

(** The first event of the scenario is within the size: the derivation
    stores the row the trigger stores. *)
Example concert_night_within_limit :
  event_vectors_fit Sample.english Sample.fits
    (Event.title Rows.concert_night) (Event.description Rows.concert_night)
  = true /\
  update_event_search_vector_limited Sample.english Sample.fits
    Rows.concert_night
  = Ok Rows.concert_night_stored.
Proof. split; vm_compute; reflexivity. Qed.

(** C8, as stated, fails: the description of [Rows.long_list] has 1.2 MB
    of lexemes that are all different, more than a tsvector has room for,
    and the derivation fails. *)
Lemma derivation_fails_on_long_text :
  Sample.bytes
    (to_tsvector Sample.english
       (Sql.COALESCE (Event.description Rows.long_list) ""))
  = 1200000%N /\
  update_event_search_vector_limited Sample.english Sample.fits
    Rows.long_list
  = Err (program_limit_exceeded "string is too long for tsvector").
Proof. split; vm_compute; reflexivity. Qed.

(** C4, as stated, fails for venue names: the lexeme of a venue name
    carries label D, the same lexeme in a description carries B, and D does
    not weigh more than B. *)
Lemma venue_name_weighs_less_than_description :
  venue_search_vector Sample.english (Some "stadium")
  = [Entry "stadium" 1 Weight.D] /\
  event_search_vector Sample.english None (Some "stadium")
  = [Entry "stadium" 1 Weight.B] /\
  Weight.heavier Weight.D Weight.B = false.
Proof. repeat split. Qed.

(* ===================================================================== *)
(** * Properties of the search query *)
(* ===================================================================== *)

Lemma append_if_sqlQuery (present : bool) (c : conjunct) (b : builder) :
  sqlQuery (append_if present c b) = sqlQuery b ++ optional present c.
Proof.
  destruct present; simpl; [reflexivity|]. symmetry. apply app_nil_r.
Qed.

Lemma append_if_queryParams (present : bool) (c : conjunct) (b : builder) :
  queryParams (append_if present c b) = queryParams b.
Proof. destruct present; reflexivity. Qed.

Lemma append_if_paramIndex (present : bool) (c : conjunct) (b : builder) :
  paramIndex (append_if present c b) = paramIndex b.
Proof. destruct present; reflexivity. Qed.

(** X3. The snippet binds its three placeholders to the longitude, the
    latitude and the radius in metres, whatever was pushed before it, as
    long as [paramIndex] is the number of the next parameter. *)
Theorem geographic_filtering_binds (g : Geo.t) (radiusMiles : Q) (b : builder) :
  paramIndex b = S (length (queryParams b)) ->
  let b' := geographic_filtering (Some g) radiusMiles b in
  sqlQuery b' = sqlQuery b ++
    [location_is_not_null;
     st_dwithin (paramIndex b + 1) (paramIndex b) (paramIndex b + 2)] /\
  param (queryParams b') (paramIndex b + 1) = Some (Geo.lon g) /\
  param (queryParams b') (paramIndex b) = Some (Geo.lat g) /\
  param (queryParams b') (paramIndex b + 2)
  = Some (radiusMiles * 1609.34)%Q /\
  paramIndex b' = S (length (queryParams b')).
Proof.
  intros Hwf. simpl. unfold param. rewrite Hwf.
  replace (S (length (queryParams b)) + 1 - 1)%nat
    with (length (queryParams b) + 1)%nat by lia.
  replace (S (length (queryParams b)) - 1)%nat
    with (length (queryParams b) + 0)%nat by lia.
  replace (S (length (queryParams b)) + 2 - 1)%nat
    with (length (queryParams b) + 2)%nat by lia.
  rewrite !nth_error_app2 by lia.
  replace (length (queryParams b) + 1 - length (queryParams b))%nat
    with 1%nat by lia.
  replace (length (queryParams b) + 0 - length (queryParams b))%nat
    with 0%nat by lia.
  replace (length (queryParams b) + 2 - length (queryParams b))%nat
    with 2%nat by lia.
  repeat split. rewrite length_app. simpl. lia.
Qed.

Lemma where_clause_sqlQuery (r : Request.t) :
  sqlQuery (where_clause r)
  = date_conjuncts r ++ geographic_conjuncts r ++ text_conjuncts r
    ++ price_conjuncts r.
Proof.
  unfold where_clause, price_filtering, text_search_filtering,
    date_range_filtering.
  rewrite !append_if_sqlQuery.
  unfold geographic_filtering, geographic_conjuncts, date_conjuncts,
    text_conjuncts, price_conjuncts.
  destruct (Request.geoLocation r) as [g|]; simpl sqlQuery.
  - rewrite !append_if_paramIndex, !append_if_sqlQuery. simpl.
    rewrite <- !app_assoc. reflexivity.
  - rewrite !append_if_sqlQuery. simpl. rewrite <- !app_assoc. reflexivity.
Qed.

Lemma where_clause_queryParams (r : Request.t) :
  queryParams (where_clause r)
  = match Request.geoLocation r with
    | Some g => [Geo.lat g; Geo.lon g; (Request.radiusMiles r * 1609.34)%Q]
    | None => []
    end.
Proof.
  unfold where_clause, price_filtering, text_search_filtering,
    date_range_filtering.
  rewrite !append_if_queryParams.
  unfold geographic_filtering.
  destruct (Request.geoLocation r) as [g|]; simpl;
    rewrite !append_if_queryParams; reflexivity.
Qed.

(** The geographic conjuncts of a request's clause. *)
Lemma where_clause_geographic (r : Request.t) :
  of_kind geographic (sqlQuery (where_clause r)) = geographic_conjuncts r.
Proof.
  rewrite where_clause_sqlQuery.
  unfold of_kind, date_conjuncts, geographic_conjuncts, text_conjuncts,
    price_conjuncts, optional.
  destruct (Sql.IS_NOT_NULL (Request.date_min r)),
           (Sql.IS_NOT_NULL (Request.date_max r)),
           (Request.geoLocation r), (truthy (Request.q r)),
           (Sql.IS_NOT_NULL (Request.price_min r)),
           (Sql.IS_NOT_NULL (Request.price_max r)); reflexivity.
Qed.

Lemma optional_kind (present : bool) (c : conjunct) (k : filter_kind) :
  kind_of c = k -> Forall (fun c => kind_of c = k) (optional present c).
Proof.
  intros Hk. destruct present; simpl; repeat constructor. exact Hk.
Qed.

(** C6. The WHERE clause of every request is the conjuncts of the date
    range that is given, then the geographic pair if a location is given,
    then the text-search conjunct if a text is given, then the conjuncts of
    the price range that is given, and nothing else: the price filter comes
    last, and no conjunct of an earlier filter follows one of a later
    filter. *)
Theorem where_clause_order (r : Request.t) :
  sqlQuery (where_clause r)
  = (if Sql.IS_NOT_NULL (Request.date_min r)
     then [start_at_ge_date_min] else []) ++
    (if Sql.IS_NOT_NULL (Request.date_max r)
     then [start_at_le_date_max] else []) ++
    (if Sql.IS_NOT_NULL (Request.geoLocation r)
     then [location_is_not_null; st_dwithin 2 1 3] else []) ++
    (if truthy (Request.q r) then [search_vectors_match] else []) ++
    (if Sql.IS_NOT_NULL (Request.price_min r)
     then [price_min_ge_price_min] else []) ++
    (if Sql.IS_NOT_NULL (Request.price_max r)
     then [price_max_le_price_max] else []) /\
  (exists dates geo text prices : list conjunct,
     sqlQuery (where_clause r) = dates ++ geo ++ text ++ prices /\
     Forall (fun c => kind_of c = date_range) dates /\
     Forall (fun c => kind_of c = geographic) geo /\
     Forall (fun c => kind_of c = text_search) text /\
     Forall (fun c => kind_of c = price) prices) /\
  StronglySorted (fun c c' => (stage (kind_of c) <= stage (kind_of c'))%nat)
                 (sqlQuery (where_clause r)).
Proof.
  split; [|split].
  - rewrite where_clause_sqlQuery.
    unfold date_conjuncts, geographic_conjuncts, text_conjuncts,
      price_conjuncts, optional.
    rewrite <- !app_assoc.
    destruct (Request.geoLocation r); reflexivity.
  - exists (date_conjuncts r), (geographic_conjuncts r), (text_conjuncts r),
      (price_conjuncts r).
    split; [apply where_clause_sqlQuery|].
    unfold date_conjuncts, geographic_conjuncts, text_conjuncts,
      price_conjuncts.
    repeat split.
    + apply Forall_app; split; apply optional_kind; reflexivity.
    + destruct (Request.geoLocation r); repeat constructor.
    + apply optional_kind; reflexivity.
    + apply Forall_app; split; apply optional_kind; reflexivity.
  - rewrite where_clause_sqlQuery.
    unfold date_conjuncts, geographic_conjuncts, text_conjuncts,
      price_conjuncts, optional.
    destruct (Sql.IS_NOT_NULL (Request.date_min r)),
             (Sql.IS_NOT_NULL (Request.date_max r)),
             (Request.geoLocation r), (truthy (Request.q r)),
             (Sql.IS_NOT_NULL (Request.price_min r)),
             (Sql.IS_NOT_NULL (Request.price_max r)); simpl;
      repeat (constructor; simpl; try lia).
Qed.

(** With every filter given, the clause is the one the index migration
    writes out. *)
Example where_clause_full :
  sqlQuery (where_clause Rows.full)
  = [start_at_ge_date_min; start_at_le_date_max;
     location_is_not_null; st_dwithin 2 1 3;
     search_vectors_match;
     price_min_ge_price_min; price_max_le_price_max].
Proof. reflexivity. Qed.

Lemma holds_AND (a b : Sql.truth) :
  Sql.holds (Sql.AND a b) = Sql.holds a && Sql.holds b.
Proof. destruct a as [[]|], b as [[]|]; reflexivity. Qed.

Section SearchProperties.

Variable english : ts_config.
Variable ST_Distance : geography -> geography -> Q.

(** A row satisfies the clause when every conjunct is TRUE on it. *)
Lemma condition_from (r : Request.t) (params : list Q) (cs : list conjunct)
    (row : Joined.t) (acc : Sql.truth) :
  Sql.holds
    (fold_left
       (fun acc c => Sql.AND acc (eval english ST_Distance r params c row))
       cs acc)
  = Sql.holds acc &&
    forallb (fun c => Sql.holds (eval english ST_Distance r params c row)) cs.
Proof.
  revert acc. induction cs as [|c cs IH]; intros acc; simpl.
  - symmetry. apply andb_true_r.
  - rewrite IH, holds_AND, andb_assoc. reflexivity.
Qed.

Lemma condition_holds (r : Request.t) (params : list Q) (cs : list conjunct)
    (row : Joined.t) :
  Sql.holds (condition english ST_Distance r params cs row)
  = forallb (fun c => Sql.holds (eval english ST_Distance r params c row)) cs.
Proof. unfold condition. rewrite condition_from. reflexivity. Qed.

Lemma keeps_split (r : Request.t) (row : Joined.t) :
  keeps english ST_Distance r row
  = all_hold english ST_Distance r row (date_conjuncts r)
    && all_hold english ST_Distance r row (geographic_conjuncts r)
    && all_hold english ST_Distance r row (text_conjuncts r)
    && all_hold english ST_Distance r row (price_conjuncts r).
Proof.
  unfold keeps, all_hold. rewrite condition_holds, where_clause_sqlQuery.
  rewrite !forallb_app, !andb_assoc. reflexivity.
Qed.

(** The geographic conjuncts on a row, for a request with a centre. *)
Lemma geographic_conjuncts_hold (r : Request.t) (g : Geo.t) (row : Joined.t) :
  Request.geoLocation r = Some g ->
  all_hold english ST_Distance r row (geographic_conjuncts r)
  = match Joined.v_location row with
    | Some p =>
        Qle_bool (ST_Distance p (point_4326 (Geo.lon g) (Geo.lat g)))
                 (Request.radiusMiles r * 1609.34)%Q
    | None => false
    end.
Proof.
  intros Hgeo. unfold all_hold. rewrite where_clause_queryParams.
  unfold geographic_conjuncts. rewrite Hgeo. simpl.
  destruct (Joined.v_location row) as [p|]; simpl; [|reflexivity].
  rewrite andb_true_r.
  destruct (Qle_bool _ _); reflexivity.
Qed.

Lemma place_In (o : order_by) (row x : Joined.t) (sorted : list Joined.t) :
  In x (place ST_Distance o row sorted) <-> x = row \/ In x sorted.
Proof.
  induction sorted as [|s sorted IH]; simpl.
  - intuition.
  - destruct (in_order ST_Distance o row s); simpl; [intuition|].
    rewrite IH. intuition.
Qed.

(** Sorting neither adds nor drops a row. *)
Lemma ORDER_BY_In (o : order_by) (x : Joined.t) (rows : list Joined.t) :
  In x (ORDER_BY ST_Distance o rows) <-> In x rows.
Proof.
  unfold ORDER_BY.
  induction rows as [|row rows IH]; simpl; [reflexivity|].
  rewrite place_In, IH. intuition.
Qed.

Lemma search_In (r : Request.t) (x : Joined.t) (rows : list Joined.t) :
  In x (search english ST_Distance r rows)
  <-> In x rows /\ keeps english ST_Distance r x = true.
Proof. unfold search. rewrite ORDER_BY_In. apply filter_In. Qed.

(** Under a geographic filter a row without a location is dropped. *)
Lemma keeps_needs_location (r : Request.t) (g : Geo.t) (row : Joined.t) :
  Request.geoLocation r = Some g ->
  Joined.v_location row = None ->
  keeps english ST_Distance r row = false.
Proof.
  intros Hgeo Hnull. rewrite keeps_split.
  rewrite (geographic_conjuncts_hold r g row Hgeo), Hnull.
  rewrite andb_false_r. reflexivity.
Qed.

(** C7. When a request has a geographic filter: a joined row whose venue
    has no location (or that has no venue) is not kept; on a row whose
    venue has a location, the geographic conjuncts of the clause hold
    exactly when the distance from the location to the centre, built from
    (lon, lat) of [geoLocation], is at most the radius in metres; and every
    row the search returns has a location within the radius. *)
Theorem geographic_filter (r : Request.t) (g : Geo.t) :
  Request.geoLocation r = Some g ->
  let center := point_4326 (Geo.lon g) (Geo.lat g) in
  let radiusMeters := (Request.radiusMiles r * 1609.34)%Q in
  (forall row : Joined.t,
     Joined.v_location row = None ->
     keeps english ST_Distance r row = false) /\
  (forall (row : Joined.t) (p : geography),
     Joined.v_location row = Some p ->
     all_hold english ST_Distance r row
              (of_kind geographic (sqlQuery (where_clause r)))
     = Qle_bool (ST_Distance p center) radiusMeters) /\
  (forall (row : Joined.t) (rows : list Joined.t),
     In row (search english ST_Distance r rows) ->
     exists p : geography,
       Joined.v_location row = Some p /\
       Qle_bool (ST_Distance p center) radiusMeters = true).
Proof.
  intros Hgeo center radiusMeters. repeat apply conj.
  - intros row Hnull. exact (keeps_needs_location r g row Hgeo Hnull).
  - intros row p Hp. rewrite where_clause_geographic.
    rewrite (geographic_conjuncts_hold r g row Hgeo), Hp. reflexivity.
  - intros row rows Hin. apply search_In in Hin as [_ Hkeeps].
    rewrite keeps_split in Hkeeps.
    rewrite (geographic_conjuncts_hold r g row Hgeo) in Hkeeps.
    destruct (Joined.v_location row) as [p|].
    + exists p. split; [reflexivity|].
      apply andb_prop in Hkeeps as [Hkeeps _].
      apply andb_prop in Hkeeps as [Hkeeps _].
      apply andb_prop in Hkeeps as [_ Hkeeps]. exact Hkeeps.
    + rewrite andb_false_r in Hkeeps. discriminate.
Qed.

(** C3 (as amended). With [sort] "distance" and no [geoLocation], the
    sorting code raises nothing and takes its default branch: the clause is
    [ORDER BY e.start_at DESC], and the search returns the rows the WHERE
    clause keeps in that order. *)
Theorem distance_sort_without_center (r : Request.t) (rows : list Joined.t) :
  Request.sort r = "distance" ->
  Request.geoLocation r = None ->
  orderBy (Request.sort r) (Request.geoLocation r) (Request.q r)
  = [(e_start_at, DESC)] /\
  search english ST_Distance r rows
  = ORDER_BY ST_Distance [(e_start_at, DESC)]
             (List.filter (keeps english ST_Distance r) rows).
Proof.
  intros Hsort Hgeo. unfold search.
  assert (orderBy (Request.sort r) (Request.geoLocation r) (Request.q r)
          = [(e_start_at, DESC)]) as ->.
  { rewrite Hsort, Hgeo. unfold orderBy. simpl.
    destruct (truthy (Request.q r)); reflexivity. }
  split; reflexivity.
Qed.

(** Whatever the text query, the default branch sorts on the start time
    alone. *)
Lemma relevance_sort_ignores_query (geoLocation : option Geo.t)
    (q : option string) :
  orderBy "relevance" geoLocation q = [(e_start_at, DESC)].
Proof.
  unfold orderBy. simpl.
  destruct geoLocation, (truthy q); reflexivity.
Qed.

End SearchProperties.

Lemma title_hit_found :
  In Rows.title_hit
     (search Sample.english Sample.ST_Distance (Rows.near_concert "date")
             [Rows.title_hit; Rows.venue_b_hit; Rows.description_hit]).
Proof. vm_compute. left. reflexivity. Defined.

Lemma geographic_filter_witness :
  exists p : geography,
    Joined.v_location Rows.title_hit = Some p /\
    Qle_bool (Sample.ST_Distance p (point_4326 (-86.15)%Q 39.77%Q))
             (5 * 1609.34)%Q = true.
Proof.
  exact (proj2 (proj2 (geographic_filter Sample.english Sample.ST_Distance
                         (Rows.near_concert "date")
                         (Geo.Make 39.77%Q (-86.15)%Q) eq_refl))
               Rows.title_hit _ title_hit_found).
Defined.

(** The scenario of Venue B: its events never come back from a search with
    a geographic filter. *)
Example venue_b_not_found :
  search Sample.english Sample.ST_Distance (Rows.near_concert "date")
         [Rows.title_hit; Rows.venue_b_hit; Rows.description_hit]
  = [Rows.title_hit; Rows.description_hit].
Proof. vm_compute. reflexivity. Qed.

Lemma distance_sort_without_center_witness :
  orderBy "distance" None (Some "concert") = [(e_start_at, DESC)] /\
  search Sample.english Sample.ST_Distance (Rows.concert "distance")
         [Rows.title_hit; Rows.description_hit]
  = ORDER_BY Sample.ST_Distance [(e_start_at, DESC)]
      (List.filter (keeps Sample.english Sample.ST_Distance
                          (Rows.concert "distance"))
                   [Rows.title_hit; Rows.description_hit]).
Proof.
  apply (distance_sort_without_center Sample.english Sample.ST_Distance
           (Rows.concert "distance")); reflexivity.
Defined.

(** C3, as stated, fails: a distance sort without a centre is answered
    with an ordering, by descending start time. *)
Lemma distance_sort_is_downgraded :
  orderBy "distance" None (Some "concert") = [(e_start_at, DESC)] /\
  search Sample.english Sample.ST_Distance (Rows.concert "distance")
         [Rows.title_hit; Rows.description_hit]
  = [Rows.description_hit; Rows.title_hit].
Proof. split; [reflexivity|]. vm_compute. reflexivity. Qed.

(** C5: the code at the failing input. With [sort] "relevance" and the
    text query "concert", the clause is [ORDER BY e.start_at DESC]; the
    event that matches in its description only (label B), and starts later,
    comes before the event that matches in its title (label A). *)
Theorem relevance_sort_orders_by_start_time :
  orderBy "relevance" None (Some "concert") = [(e_start_at, DESC)] /\
  Rows.occurrences "concert" (Joined.e Rows.title_hit)
  = [Entry "concert" 1 Weight.A] /\
  Rows.occurrences "concert" (Joined.e Rows.description_hit)
  = [Entry "concert" 4 Weight.B] /\
  search Sample.english Sample.ST_Distance (Rows.concert "relevance")
         [Rows.title_hit; Rows.description_hit]
  = [Rows.description_hit; Rows.title_hit].
Proof.
  split; [apply relevance_sort_ignores_query|].
  split; [reflexivity|]. split; [reflexivity|].
  vm_compute. reflexivity.
Qed.

(* ===================================================================== *)
(** * Properties of the migrations *)
(* ===================================================================== *)

Lemma run_cons (s : statement) (script : list statement) (db : database) :
  run (s :: script) db = run script (step db s).
Proof. reflexivity. Qed.

Lemma database_eq (a b : database) :
  extensions a = extensions b -> columns a = columns b ->
  comments a = comments b -> indexes a = indexes b ->
  functions a = functions b -> triggers a = triggers b ->
  wc_events a = wc_events b -> wc_venues a = wc_venues b -> a = b.
Proof. destruct a, b; simpl; intros; subst; reflexivity. Qed.

(** ** Entries created unless present *)

Lemma create_if_absent_self {K V : Type} `{Countable K}
    (k : K) (v : V) (m : gmap K V) :
  Sql.IS_NOT_NULL (create_if_absent k v m !! k) = true.
Proof.
  unfold create_if_absent. destruct (m !! k) eqn:E.
  - rewrite E. reflexivity.
  - rewrite lookup_insert_eq. reflexivity.
Qed.

Lemma create_if_absent_keeps {K V : Type} `{Countable K}
    (k k' : K) (v : V) (m : gmap K V) :
  Sql.IS_NOT_NULL (m !! k') = true ->
  Sql.IS_NOT_NULL (create_if_absent k v m !! k') = true.
Proof.
  unfold create_if_absent. intros Hk'. destruct (m !! k) eqn:E; [exact Hk'|].
  destruct (decide (k = k')) as [->|Hne].
  - rewrite lookup_insert_eq. reflexivity.
  - rewrite lookup_insert_ne by exact Hne. exact Hk'.
Qed.

Lemma create_if_absent_present {K V : Type} `{Countable K}
    (k : K) (v : V) (m : gmap K V) :
  Sql.IS_NOT_NULL (m !! k) = true -> create_if_absent k v m = m.
Proof.
  unfold create_if_absent. destruct (m !! k); [reflexivity|discriminate].
Qed.

(** ** One statement at a time *)

Lemma step_COMMENT_ON_INDEX (db : database) (name text : string) :
  has_index db name = true ->
  step db (COMMENT_ON_INDEX name text)
  = with_comments (insert ("INDEX " +:+ name) text) db.
Proof. intros Hix. unfold step, COMMENT_ON_INDEX. rewrite Hix. reflexivity. Qed.

Lemma step_COMMENT_ON_COLUMN (db : database) (table column text : string) :
  has_column db table column = true ->
  step db (COMMENT_ON_COLUMN table column text)
  = with_comments (insert ("COLUMN " +:+ table +:+ "." +:+ column) text) db.
Proof. intros Hc. unfold step, COMMENT_ON_COLUMN. rewrite Hc. reflexivity. Qed.

Lemma step_COMMENT_ON_FUNCTION (db : database) (name text : string) :
  has_function db name = true ->
  step db (COMMENT_ON_FUNCTION name text)
  = with_comments (insert ("FUNCTION " +:+ name) text) db.
Proof. intros Hf. unfold step, COMMENT_ON_FUNCTION. rewrite Hf. reflexivity. Qed.

Lemma step_UPDATE_wc_venues (db : database) (column : string)
    (set : Venue.row -> Venue.row) (cond : Venue.row -> bool) :
  has_column db "public.wc_venues" column = true ->
  step db (UPDATE_wc_venues column set cond)
  = with_venues (map (fun r => if cond r then set r else r)) db.
Proof. intros Hc. unfold step, UPDATE_wc_venues. rewrite Hc. reflexivity. Qed.

Lemma step_UPDATE_wc_events (db : database) (column : string)
    (set : Event.row -> Event.row) (cond : Event.row -> bool) :
  has_column db "public.wc_events" column = true ->
  step db (UPDATE_wc_events column set cond)
  = with_events (map (fun r => if cond r then set r else r)) db.
Proof. intros Hc. unfold step, UPDATE_wc_events. rewrite Hc. reflexivity. Qed.

Lemma step_CREATE_TRIGGER (db : database) (name : string)
    (tg : trigger) :
  has_function db (tg_function tg) = true ->
  has_trigger db (tg_table tg) name = false ->
  step db (CREATE_TRIGGER name tg)
  = with_triggers (insert (tg_table tg, name) tg) db.
Proof.
  intros Hf Ht. unfold step, CREATE_TRIGGER.
  rewrite Hf, Ht. reflexivity.
Qed.

Lemma step_DROP_FUNCTION_IF_EXISTS (db : database) (name : string) :
  step db (DROP_FUNCTION_IF_EXISTS name)
  = if function_in_use db name then db
    else with_comments (delete ("FUNCTION " +:+ name))
           (with_functions (delete name) db).
Proof.
  unfold step, DROP_FUNCTION_IF_EXISTS.
  destruct (function_in_use db name); reflexivity.
Qed.

Lemma step_DO_verify_postgis (db : database) :
  has_extension db "postgis" = true -> step db DO_verify_postgis = db.
Proof. intros He. unfold step, DO_verify_postgis. rewrite He. reflexivity. Qed.

(** Adding a column that exists changes nothing; the rows of a new column
    are nulled. Both cases in one expression. *)
Lemma step_ADD_COLUMN_venues (db : database) (column : string)
    (f : list Venue.row -> list Venue.row) :
  step db (ADD_COLUMN_IF_NOT_EXISTS "public.wc_venues" column (with_venues f))
  = with_columns (fun c => {[("public.wc_venues", column)]} ∪ c)
      (with_venues (fun rows => if has_column db "public.wc_venues" column
                                then rows else f rows) db).
Proof.
  unfold step, ADD_COLUMN_IF_NOT_EXISTS.
  destruct (has_column db "public.wc_venues" column) eqn:Hc.
  - apply bool_decide_eq_true in Hc.
    apply database_eq; try reflexivity. simpl. set_solver.
  - reflexivity.
Qed.

Lemma step_ADD_COLUMN_events (db : database) (column : string)
    (f : list Event.row -> list Event.row) :
  step db (ADD_COLUMN_IF_NOT_EXISTS "public.wc_events" column (with_events f))
  = with_columns (fun c => {[("public.wc_events", column)]} ∪ c)
      (with_events (fun rows => if has_column db "public.wc_events" column
                                then rows else f rows) db).
Proof.
  unfold step, ADD_COLUMN_IF_NOT_EXISTS.
  destruct (has_column db "public.wc_events" column) eqn:Hc.
  - apply bool_decide_eq_true in Hc.
    apply database_eq; try reflexivity. simpl. set_solver.
  - reflexivity.
Qed.

Lemma has_column_added (db : database) (tc tc' : string * string) :
  tc ≠ tc' ->
  bool_decide (tc' ∈ ({[tc]} ∪ columns db : gset (string * string)))
  = has_column db tc'.1 tc'.2.
Proof.
  intros Hne. unfold has_column. destruct tc'. simpl.
  apply bool_decide_ext. set_solver.
Qed.

(** Reads the fields of a database written by the statements so far. *)
Ltac fields :=
  cbn [with_extensions with_columns with_comments with_indexes with_functions
       with_triggers with_events with_venues
       extensions columns comments indexes functions triggers wc_events
       wc_venues].

Ltac present :=
  repeat first [ apply create_if_absent_self | apply create_if_absent_keeps ].

(** Shows that the object a statement needs is there. *)
Ltac needed :=
  unfold has_column, has_extension, has_index, has_function, has_trigger;
  fields;
  first
    [ apply bool_decide_eq_true; set_solver
    | progress present
    | simplify_map_eq; reflexivity ].

(** Runs a script statement by statement. *)
Ltac exec :=
  repeat first
    [ rewrite run_cons, step_COMMENT_ON_INDEX by needed
    | rewrite run_cons, step_COMMENT_ON_COLUMN by needed
    | rewrite run_cons, step_COMMENT_ON_FUNCTION by needed
    | rewrite run_cons, step_UPDATE_wc_venues by needed
    | rewrite run_cons, step_UPDATE_wc_events by needed
    | rewrite run_cons, step_CREATE_TRIGGER by needed
    | rewrite run_cons, step_DO_verify_postgis by needed
    | rewrite run_cons, step_ADD_COLUMN_venues
    | rewrite run_cons, step_ADD_COLUMN_events
    | rewrite run_cons, step_DROP_FUNCTION_IF_EXISTS;
      destruct (function_in_use _ _)
    | rewrite run_cons; unfold step at 1;
      cbn [CREATE_INDEX_IF_NOT_EXISTS ANALYZE SELECT DO_RAISE_NOTICE
           CREATE_EXTENSION_IF_NOT_EXISTS CREATE_OR_REPLACE_FUNCTION
           DROP_TRIGGER_IF_EXISTS RAISE_NOTICE_outside_block] ].

(** Equal maps built from inserts and deletes at given keys. *)
Ltac maps :=
  apply map_eq; intros ?;
  repeat first [ rewrite lookup_insert | rewrite lookup_delete ];
  repeat case_decide; simplify_eq; reflexivity.

Ltac created :=
  repeat (rewrite create_if_absent_present by present).

(** ** The PostGIS migration *)

(** Whether or not the old function could be dropped, the script leaves
    the same database: [CREATE OR REPLACE] and [COMMENT ON] overwrite what
    a failed [DROP FUNCTION] left. *)
Lemma run_postgis_migration (db : database) :
  run postgis_migration db = postgis_migration_leaves db.
Proof.
  unfold postgis_migration, backfill_venue_location. exec;
    unfold run, fold_left, postgis_migration_leaves;
    apply database_eq; fields; try reflexivity; maps.
Qed.

Lemma backfilled_location_twice (r : Venue.row) :
  backfilled_location (backfilled_location r) = backfilled_location r.
Proof.
  unfold backfilled_location.
  destruct r as [i n [la|] [lo|] [l|] sv rs]; reflexivity.
Qed.

Lemma postgis_migration_leaves_twice (db : database) :
  postgis_migration_leaves (postgis_migration_leaves db)
  = postgis_migration_leaves db.
Proof.
  apply database_eq; unfold postgis_migration_leaves at 1; fields.
  - simpl. set_solver.
  - simpl. set_solver.
  - simpl. maps.
  - simpl. apply create_if_absent_present, create_if_absent_self.
  - simpl. apply insert_insert_eq.
  - simpl. apply insert_insert_eq.
  - reflexivity.
  - replace (has_column (postgis_migration_leaves db)
               "public.wc_venues" "location") with true.
    2:{ symmetry. apply bool_decide_eq_true. simpl. set_solver. }
    simpl. rewrite List.map_map. apply List.map_ext. intros r.
    apply backfilled_location_twice.
Qed.

(** ** The index migration *)

Lemma run_index_migration (db : database) :
  run index_migration db = index_migration_leaves db.
Proof.
  unfold index_migration. exec.
  unfold run, fold_left, index_migration_leaves.
  apply database_eq; fields; reflexivity.
Qed.

Lemma index_migration_leaves_twice (db : database) :
  index_migration_leaves (index_migration_leaves db)
  = index_migration_leaves db.
Proof.
  apply database_eq; unfold index_migration_leaves at 1; fields;
    try reflexivity.
  - simpl. maps.
  - simpl. created. reflexivity.
Qed.

(** ** The text-search migration *)

Section TextSearchMigrationProperties.

Variable english : ts_config.

Lemma run_text_search_migration (db : database) :
  run (text_search_migration english) db
  = text_search_migration_leaves english db.
Proof.
  unfold text_search_migration, backfill_event_search_vector,
    backfill_venue_search_vector. exec.
  unfold run, fold_left, text_search_migration_leaves.
  apply database_eq; fields; try reflexivity.
  - maps.
  - unfold has_column at 1. fields.
    rewrite (has_column_added db ("public.wc_events", "search_vector")
               ("public.wc_venues", "search_vector")) by (intros [=]).
    reflexivity.
Qed.

Lemma backfilled_event_vector_twice (r : Event.row) :
  backfilled_event_vector english (backfilled_event_vector english r)
  = backfilled_event_vector english r.
Proof.
  unfold backfilled_event_vector.
  destruct r as [i t d s v [sv|] rs]; reflexivity.
Qed.

Lemma backfilled_venue_vector_twice (r : Venue.row) :
  backfilled_venue_vector english (backfilled_venue_vector english r)
  = backfilled_venue_vector english r.
Proof.
  unfold backfilled_venue_vector.
  destruct r as [i n la lo l [sv|] rs]; reflexivity.
Qed.

Lemma text_search_migration_leaves_twice (db : database) :
  text_search_migration_leaves english (text_search_migration_leaves english db)
  = text_search_migration_leaves english db.
Proof.
  apply database_eq; unfold text_search_migration_leaves at 1; fields.
  - simpl. set_solver.
  - simpl. set_solver.
  - simpl. maps.
  - simpl. created. reflexivity.
  - simpl. maps.
  - simpl. maps.
  - replace (has_column (text_search_migration_leaves english db)
               "public.wc_events" "search_vector") with true.
    2:{ symmetry. apply bool_decide_eq_true. simpl. set_solver. }
    simpl. rewrite List.map_map. apply List.map_ext. intros r.
    apply backfilled_event_vector_twice.
  - replace (has_column (text_search_migration_leaves english db)
               "public.wc_venues" "search_vector") with true.
    2:{ symmetry. apply bool_decide_eq_true. simpl. set_solver. }
    simpl. rewrite List.map_map. apply List.map_ext. intros r.
    apply backfilled_venue_vector_twice.
Qed.

(** C10. Running a migration script a second time leaves the database the
    first run produced unchanged, for the text-search migration, the
    PostGIS migration and the index migration alike, from any database. *)
Theorem migrations_idempotent (db : database) :
  run (text_search_migration english) (run (text_search_migration english) db)
  = run (text_search_migration english) db /\
  run postgis_migration (run postgis_migration db)
  = run postgis_migration db /\
  run index_migration (run index_migration db) = run index_migration db.
Proof.
  rewrite !run_text_search_migration, !run_postgis_migration,
    !run_index_migration.
  split; [apply text_search_migration_leaves_twice|].
  split; [apply postgis_migration_leaves_twice|].
  apply index_migration_leaves_twice.
Qed.

End TextSearchMigrationProperties.

(* ===================================================================== *)
(** * Further properties *)
(* ===================================================================== *)

(** The backfills name only the derived column, so none of the three
    triggers fires on them, installed or not. *)
Example backfills_fire_no_trigger :
  fires trigger_update_venue_location (UPDATE ["location"]) = false /\
  fires trigger_update_venue_search_vector (UPDATE ["search_vector"]) = false /\
  fires trigger_update_event_search_vector (UPDATE ["search_vector"]) = false.
Proof. repeat split. Qed.

Section MigratedTableProperties.

Variable english : ts_config.

(** The backfill of step 2 leaves a row in step whose location was NULL
    or in step before. *)
Lemma backfilled_location_in_step (r : Venue.row) :
  Venue.location r = None \/ Venue.location r = derived_location r ->
  Venue.location (backfilled_location r)
  = derived_location (backfilled_location r).
Proof.
  unfold backfilled_location, derived_location.
  destruct r as [i n [la|] [lo|] [l|] sv rs]; simpl;
    intros [H|H]; congruence.
Qed.

(** The rows the PostGIS migration leaves are in step, when those it
    found could be brought in step. *)
Lemma found_location (db : database) (v : Venue.row) :
  locations_can_be_derived db ->
  In v (wc_venues (run postgis_migration db)) ->
  Venue.location v = derived_location v.
Proof.
  intros Hdb. rewrite run_postgis_migration.
  unfold postgis_migration_leaves. fields.
  destruct Hdb as [Hnew | Hrows].
  - rewrite Hnew, List.map_map. intros Hin.
    apply in_map_iff in Hin as (r & <- & _). apply (migrated_location r).
  - intros Hin. apply in_map_iff in Hin as (r & <- & Hr).
    apply backfilled_location_in_step.
    destruct (has_column db "public.wc_venues" "location").
    + eapply List.Forall_forall in Hrows; eassumption.
    + apply in_map_iff in Hr as (r0 & <- & _). left. reflexivity.
Qed.

Lemma venue_kept_location (found : list Venue.row) (v : Venue.row) :
  Forall (fun r => Venue.location r = derived_location r) found ->
  venue_kept english found v -> Venue.location v = derived_location v.
Proof.
  intros Hfound.
  induction 1 as [v Hin | NEW v Hins | s OLD v _ IH Hdirect Hupd].
  - eapply List.Forall_forall in Hfound; eassumption.
  - eapply venue_insert_location; eassumption.
  - eapply venue_update_location; eassumption.
Qed.

(** C2 (as amended). Let the PostGIS migration run on a table to which it
    adds the [location] column, or in which every location it finds is
    NULL or the point of the row's coordinates. For every venue row
    reachable from the table it leaves through INSERTs and UPDATEs of which
    none assigns [location] while naming neither [lat] nor [lon],
    [location] is present iff [lat] and [lon] are both non-null, and it is
    then the point built from (lon, lat) with SRID 4326; an UPDATE that
    sets [lat] or [lon] to NULL leaves [location] NULL. *)
Theorem location_follows_coordinates (db : database) :
  locations_can_be_derived db ->
  (forall v : Venue.row,
     venue_kept english (wc_venues (run postgis_migration db)) v ->
     Venue.location v
     = Sql.strict2 point_4326 (Venue.lon v) (Venue.lat v) /\
     Sql.IS_NOT_NULL (Venue.location v)
     = Sql.IS_NOT_NULL (Venue.lat v) && Sql.IS_NOT_NULL (Venue.lon v)) /\
  (forall (s : Venue.assignments) (OLD v : Venue.row),
     Venue.set_lat s = Some None \/ Venue.set_lon s = Some None ->
     venue_update english s OLD = Ok v ->
     Venue.location v = None).
Proof.
  intros Hdb. split.
  - intros v Hv.
    assert (Hloc : Venue.location v = derived_location v).
    { apply (venue_kept_location (wc_venues (run postgis_migration db)));
        [|exact Hv].
      apply List.Forall_forall. intros r Hr.
      apply (found_location db r Hdb Hr). }
    split; [exact Hloc|].
    rewrite Hloc. apply derived_location_present.
  - apply venue_update_clears.
Qed.

End MigratedTableProperties.

(** Venue A as the migration leaves it, after [UPDATE wc_venues SET lon =
    NULL]. *)
Lemma venue_a_without_lon_kept :
  venue_kept Sample.english
    (wc_venues (run postgis_migration Rows.before_migrations))
    (Rows.stored (migrated Rows.venue_a)
       (venue_update Sample.english Rows.set_lon_null
                     (migrated Rows.venue_a))).
Proof.
  eapply venue_kept_update with (s := Rows.set_lon_null)
                                (OLD := migrated Rows.venue_a).
  - apply venue_kept_found. vm_compute. left. reflexivity.
  - reflexivity.
  - reflexivity.
Defined.

Lemma location_follows_coordinates_witness :
  locations_can_be_derived Rows.before_migrations /\
  Venue.location
    (Rows.stored (migrated Rows.venue_a)
       (venue_update Sample.english Rows.set_lon_null
                     (migrated Rows.venue_a)))
  = None.
Proof.
  assert (Hdb : locations_can_be_derived Rows.before_migrations)
    by (left; vm_compute; reflexivity).
  split; [exact Hdb|].
  exact (proj1 (proj1 (location_follows_coordinates Sample.english
                         Rows.before_migrations Hdb) _
                      venue_a_without_lon_kept)).
Defined.

(** Without the condition on the table the migration runs on, C2 fails
    another way: run on a table that has the column, the migration fills
    the locations that are NULL and keeps every other, also a stale one,
    and an UPDATE that names no coordinate keeps it too. The row has no
    longitude and a location. *)
Lemma stale_location_survives_migration :
  exists v : Venue.row,
    venue_kept Sample.english (wc_venues (run postgis_migration Rows.stale)) v /\
    Venue.lon v = None /\
    Venue.location v = Some (point_4326 (-86.1581) 39.7684).
Proof.
  exists (Rows.stored Rows.venue_b_stale
            (venue_update Sample.english Rows.set_name_elsewhere
                          Rows.venue_b_stale)).
  split; [|split; reflexivity].
  eapply venue_kept_update with (s := Rows.set_name_elsewhere)
                                (OLD := Rows.venue_b_stale).
  - apply venue_kept_found. vm_compute. left. reflexivity.
  - reflexivity.
  - reflexivity.
Qed.

Section EventRowProperties.

Variable english : ts_config.


Lemma event_before_row_vector (op : tg_op) (NEW e : Event.row) :
  event_before_row english op NEW = Ok e ->
  Event.title e = Event.title NEW /\
  Event.description e = Event.description NEW /\
  Event.search_vector e
  = if fires trigger_update_event_search_vector op
    then derived_event_vector english NEW
    else Event.search_vector NEW.
Proof.
  unfold event_before_row, before_row.
  destruct (fires trigger_update_event_search_vector op);
    intros [= <-]; destruct NEW; repeat split.
Qed.




End EventRowProperties.



Section ClauseProperties.

Variable english : ts_config.
Variable ST_Distance : geography -> geography -> Q.

Lemma forallb_Permutation {X : Type} (f : X -> bool) (l l' : list X) :
  Permutation l l' -> forallb f l = forallb f l'.
Proof.
  induction 1 as [|a l l' _ IH|a b l|l l' l'' _ IH1 _ IH2]; simpl.
  - reflexivity.
  - rewrite IH. reflexivity.
  - destruct (f a), (f b); reflexivity.
  - rewrite IH1. exact IH2.
Qed.

(** X2. Writing the conjuncts of a WHERE clause in another order keeps
    the same rows: the order of the filters changes the cost, not the
    result set. *)
Theorem condition_order_independent (r : Request.t) (params : list Q)
    (cs cs' : list conjunct) (row : Joined.t) :
  Permutation cs cs' ->
  Sql.holds (condition english ST_Distance r params cs row)
  = Sql.holds (condition english ST_Distance r params cs' row).
Proof.
  intros Hperm. rewrite !condition_holds.
  apply forallb_Permutation. exact Hperm.
Qed.

(** ** ORDER BY sorts *)

Lemma value_le_total (a b : option Q) :
  value_le a b = false -> value_le b a = true.
Proof.
  destruct a as [x|], b as [y|]; simpl; try discriminate; try reflexivity.
  intros Hxy. apply Qle_bool_iff.
  destruct (Qlt_le_dec y x) as [Hlt|Hle].
  - apply Qlt_le_weak. exact Hlt.
  - apply Qle_bool_iff in Hle. congruence.
Qed.

Lemma in_order_total (o : order_by) (row1 row2 : Joined.t) :
  in_order ST_Distance o row1 row2 = false ->
  in_order ST_Distance o row2 row1 = true.
Proof.
  induction o as [|[k d] o IH]; simpl; [discriminate|].
  destruct d.
  - destruct (value_le (sort_value ST_Distance k row1)
                       (sort_value ST_Distance k row2)) eqn:H12.
    + destruct (value_le (sort_value ST_Distance k row2)
                         (sort_value ST_Distance k row1)) eqn:H21;
        [exact IH|discriminate].
    + intros _. rewrite (value_le_total _ _ H12). reflexivity.
  - destruct (value_le (sort_value ST_Distance k row2)
                       (sort_value ST_Distance k row1)) eqn:H21.
    + destruct (value_le (sort_value ST_Distance k row1)
                         (sort_value ST_Distance k row2)) eqn:H12;
        [exact IH|discriminate].
    + intros _. rewrite (value_le_total _ _ H21). reflexivity.
Qed.

Lemma place_HdRel (o : order_by) (a row : Joined.t) (sorted : list Joined.t) :
  in_order ST_Distance o a row = true ->
  HdRel (fun x y => in_order ST_Distance o x y = true) a sorted ->
  HdRel (fun x y => in_order ST_Distance o x y = true) a
        (place ST_Distance o row sorted).
Proof.
  intros Harow Hhd. destruct sorted as [|s sorted]; simpl.
  - constructor. exact Harow.
  - destruct (in_order ST_Distance o row s); constructor.
    + exact Harow.
    + inversion Hhd; assumption.
Qed.

Lemma place_Sorted (o : order_by) (row : Joined.t) (sorted : list Joined.t) :
  Sorted (fun x y => in_order ST_Distance o x y = true) sorted ->
  Sorted (fun x y => in_order ST_Distance o x y = true)
         (place ST_Distance o row sorted).
Proof.
  induction 1 as [|s sorted Hsorted IH Hhd]; simpl.
  - repeat constructor.
  - destruct (in_order ST_Distance o row s) eqn:Hrs.
    + constructor; [constructor; assumption|]. constructor. exact Hrs.
    + constructor; [exact IH|].
      apply place_HdRel; [|exact Hhd].
      apply in_order_total. exact Hrs.
Qed.

Lemma place_Permutation (o : order_by) (row : Joined.t)
    (sorted : list Joined.t) :
  Permutation (row :: sorted) (place ST_Distance o row sorted).
Proof.
  induction sorted as [|s sorted IH]; simpl; [reflexivity|].
  destruct (in_order ST_Distance o row s); [reflexivity|].
  rewrite perm_swap. constructor. exact IH.
Qed.

(** [ORDER BY] returns the rows it was given, each next to one it may
    stand before. *)
Theorem ORDER_BY_sorts (o : order_by) (rows : list Joined.t) :
  Permutation rows (ORDER_BY ST_Distance o rows) /\
  Sorted (fun x y => in_order ST_Distance o x y = true)
         (ORDER_BY ST_Distance o rows).
Proof.
  unfold ORDER_BY. induction rows as [|row rows [IHp IHs]]; simpl.
  - split; constructor.
  - split.
    + rewrite <- place_Permutation. constructor. exact IHp.
    + apply place_Sorted. exact IHs.
Qed.

(** X4. Sorted by date: start times ascend, a NULL start time last.
    Sorted by relevance, with or without a text query: start times
    descend, a NULL start time first. *)
Theorem search_sorted_on_start_time (r : Request.t) (rows : list Joined.t) :
  (Request.sort r = "date" ->
   Sorted (fun x y =>
             value_le (timestamp (Event.start_at (Joined.e x)))
                      (timestamp (Event.start_at (Joined.e y))) = true)
          (search english ST_Distance r rows)) /\
  (Request.sort r = "relevance" ->
   Sorted (fun x y =>
             value_le (timestamp (Event.start_at (Joined.e y)))
                      (timestamp (Event.start_at (Joined.e x))) = true)
          (search english ST_Distance r rows)).
Proof.
  unfold search. split; intros Hsort; rewrite Hsort.
  - replace (orderBy "date" _ _) with [(e_start_at, ASC)] by reflexivity.
    eapply Sorted_ind with
      (P := fun l => Sorted _ l);
      [constructor | | apply ORDER_BY_sorts].
    intros a l _ IH Hhd. constructor; [exact IH|].
    destruct Hhd as [|b l Hab]; constructor.
    simpl in Hab.
    destruct (value_le (timestamp (Event.start_at (Joined.e a)))
                       (timestamp (Event.start_at (Joined.e b))));
      [reflexivity|discriminate].
  - rewrite relevance_sort_ignores_query.
    eapply Sorted_ind with
      (P := fun l => Sorted _ l);
      [constructor | | apply ORDER_BY_sorts].
    intros a l _ IH Hhd. constructor; [exact IH|].
    destruct Hhd as [|b l Hab]; constructor.
    simpl in Hab.
    destruct (value_le (timestamp (Event.start_at (Joined.e b)))
                       (timestamp (Event.start_at (Joined.e a))));
      [reflexivity|discriminate].
Qed.

End ClauseProperties.

(** A script that commits as one query leaves what it leaves sent
    statement by statement. *)
Lemma committed_run (script : list statement) (db db' : database) :
  run_as_one_query script db = Ok db' -> db' = run script db.
Proof.
  revert db. induction script as [|s rest IH]; intros db;
    cbn [run_as_one_query].
  - intros [= <-]. reflexivity.
  - rewrite run_cons. unfold step. destruct (s db) as [d|e]; simpl.
    + apply IH.
    + discriminate.
Qed.

(** A script that holds a statement no database accepts is refused as one
    query. *)
Lemma refused_run (script : list statement) (s : statement) :
  In s script -> (forall d, exists e, s d = Err e) ->
  forall db, exists e, run_as_one_query script db = Err e.
Proof.
  intros Hin Hfails. induction script as [|s0 rest IH]; [destruct Hin|].
  intros db. simpl. destruct Hin as [-> | Hin].
  - destruct (Hfails db) as [e ->]. exists e. reflexivity.
  - destruct (s0 db) as [d|e]; simpl; [apply (IH Hin)|].
    exists e. reflexivity.
Qed.

Section MigrationResults.

Variable english : ts_config.

(** X5. Sent statement by statement, the PostGIS and the text-search
    migration leave the three trigger functions and the three triggers in
    the catalog, whatever was there under their names before. Sent as one
    query, the text-search migration leaves its two functions and its two
    triggers whenever it commits, and the PostGIS migration is refused:
    its closing [RAISE NOTICE] lines stand outside a block. *)
Theorem migrations_install_triggers (db : database) :
  (let db1 := run postgis_migration db in
   let db2 := run (text_search_migration english) db in
   functions db1 !! "update_venue_location" = Some body_update_venue_location /\
   triggers db1 !! ("public.wc_venues", "trigger_update_venue_location")
   = Some trigger_update_venue_location /\
   functions db2 !! "update_event_search_vector"
   = Some body_update_event_search_vector /\
   functions db2 !! "update_venue_search_vector"
   = Some body_update_venue_search_vector /\
   triggers db2 !! ("public.wc_events", "trigger_update_event_search_vector")
   = Some trigger_update_event_search_vector /\
   triggers db2 !! ("public.wc_venues", "trigger_update_venue_search_vector")
   = Some trigger_update_venue_search_vector) /\
  (forall db2 : database,
     run_as_one_query (text_search_migration english) db = Ok db2 ->
     functions db2 !! "update_event_search_vector"
     = Some body_update_event_search_vector /\
     functions db2 !! "update_venue_search_vector"
     = Some body_update_venue_search_vector /\
     triggers db2 !! ("public.wc_events", "trigger_update_event_search_vector")
     = Some trigger_update_event_search_vector /\
     triggers db2 !! ("public.wc_venues", "trigger_update_venue_search_vector")
     = Some trigger_update_venue_search_vector) /\
  (exists e : pg_error, run_as_one_query postgis_migration db = Err e).
Proof.
  split; [|split].
  - intros db1 db2. subst db1 db2.
    rewrite run_postgis_migration, run_text_search_migration.
    unfold postgis_migration_leaves, text_search_migration_leaves. fields.
    repeat split; simplify_map_eq; reflexivity.
  - intros db2 Hcommitted. apply committed_run in Hcommitted. subst db2.
    rewrite run_text_search_migration.
    unfold text_search_migration_leaves. fields.
    repeat split; simplify_map_eq; reflexivity.
  - apply (refused_run postgis_migration RAISE_NOTICE_outside_block).
    + unfold postgis_migration. repeat (first [left; reflexivity | right]).
    + intros d. eexists. reflexivity.
Qed.


End MigrationResults.

(** X7. When the PostGIS migration adds the [location] column, it leaves
    every venue row with the location its coordinates give. *)
Theorem postgis_migration_establishes (db : database) :
  has_column db "public.wc_venues" "location" = false ->
  Forall (fun v => Venue.location v = derived_location v)
         (wc_venues (run postgis_migration db)).
Proof.
  intros Hnew. rewrite run_postgis_migration.
  unfold postgis_migration_leaves. fields. rewrite Hnew.
  rewrite List.map_map. apply List.Forall_forall. intros v Hin.
  apply in_map_iff in Hin as (r & <- & _).
  apply (migrated_location r).
Qed.

Lemma postgis_migration_establishes_witness :
  Forall (fun v => Venue.location v = derived_location v)
         (wc_venues (run postgis_migration Rows.before_migrations)).
Proof.
  apply (postgis_migration_establishes Rows.before_migrations).
  vm_compute. reflexivity.
Defined.

Lemma geographic_filtering_binds_witness :
  let b' := geographic_filtering (Some (Geo.Make 39.77%Q (-86.15)%Q)) 5%Q
                                 initial in
  sqlQuery b' = [location_is_not_null; st_dwithin 2 1 3] /\
  param (queryParams b') 2 = Some (-86.15)%Q /\
  param (queryParams b') 1 = Some 39.77%Q /\
  param (queryParams b') 3 = Some (5 * 1609.34)%Q /\
  paramIndex b' = 4%nat.
Proof.
  apply (geographic_filtering_binds (Geo.Make 39.77%Q (-86.15)%Q) 5%Q initial).
  reflexivity.
Defined.

Lemma condition_order_independent_witness :
  Sql.holds (condition Sample.english Sample.ST_Distance Rows.full
               (queryParams (where_clause Rows.full))
               [start_at_ge_date_min; location_is_not_null] Rows.title_hit)
  = Sql.holds (condition Sample.english Sample.ST_Distance Rows.full
                 (queryParams (where_clause Rows.full))
                 [location_is_not_null; start_at_ge_date_min] Rows.title_hit).
Proof.
  apply (condition_order_independent Sample.english Sample.ST_Distance).
  apply perm_swap.
Defined.

Section Scenario.

Variable english : ts_config.
Variable ST_Distance : geography -> geography -> Q.

(** X8. The scenario of Venue B in general: a venue that lacks a
    coordinate, kept in step by the trigger, has no location, so no search
    with a geographic filter returns an event at it. *)
Theorem venue_without_coordinate_not_found
    (v : Venue.row) (e : Event.row) (price_min price_max : option Q)
    (r : Request.t) (g : Geo.t) :
  maintained english v ->
  Venue.lat v = None \/ Venue.lon v = None ->
  Request.geoLocation r = Some g ->
  keeps english ST_Distance r (Joined.Make e (Some v) price_min price_max)
  = false.
Proof.
  intros Hv Hnull Hgeo.
  apply (keeps_needs_location english ST_Distance r g _ Hgeo).
  unfold Joined.v_location. simpl.
  rewrite (maintained_location english v Hv). unfold derived_location.
  destruct Hnull as [-> | ->]; [|destruct (Venue.lat v)]; simpl;
    try reflexivity.
  destruct (Venue.lon v); reflexivity.
Qed.

End Scenario.

Lemma venue_b_maintained : maintained Sample.english Rows.venue_b_stored.
Proof.
  eapply maintained_insert with (NEW := Rows.venue_b). reflexivity.
Defined.

Lemma venue_without_coordinate_not_found_witness :
  keeps Sample.english Sample.ST_Distance (Rows.near_concert "date")
        Rows.venue_b_hit
  = false.
Proof.
  apply (venue_without_coordinate_not_found Sample.english Sample.ST_Distance
           Rows.venue_b_stored Rows.concert_night_stored None None
           (Rows.near_concert "date") (Geo.Make 39.77%Q (-86.15)%Q)).
  - exact venue_b_maintained.
  - right. reflexivity.
  - reflexivity.
Defined.

(* ===================================================================== *)
(** * The distance a search reports *)
(* ===================================================================== *)

Section DistanceProperties.

Variable english : ts_config.
Variable ST_Distance : geography -> geography -> Q.

(** A row the clause keeps under a geographic filter has a location
    within the radius. *)
Lemma kept_within (r : Request.t) (g : Geo.t) (row : Joined.t) :
  Request.geoLocation r = Some g ->
  keeps english ST_Distance r row = true ->
  exists p : geography,
    Joined.v_location row = Some p /\
    Qle_bool (ST_Distance p (point_4326 (Geo.lon g) (Geo.lat g)))
             (Request.radiusMiles r * 1609.34)%Q = true.
Proof.
  intros Hgeo Hkeeps. rewrite keeps_split in Hkeeps.
  rewrite (geographic_conjuncts_hold english ST_Distance r g row Hgeo)
    in Hkeeps.
  destruct (Joined.v_location row) as [p|].
  - exists p. split; [reflexivity|].
    apply andb_prop in Hkeeps as [Hkeeps _].
    apply andb_prop in Hkeeps as [Hkeeps _].
    apply andb_prop in Hkeeps as [_ Hkeeps]. exact Hkeeps.
  - rewrite andb_false_r in Hkeeps. discriminate.
Qed.

(** X9. Under a geographic filter every row the WHERE clause keeps has a
    location, within [radiusMiles * 1609.34] metres of the centre, and is
    reported with a [distance_miles] that is not NULL: the metres from its
    location to the same centre, over 1609.34. *)
Theorem distance_miles_of_kept_row (r : Request.t) (g : Geo.t)
    (row : Joined.t) :
  Request.geoLocation r = Some g ->
  keeps english ST_Distance r row = true ->
  exists p : geography,
    Joined.v_location row = Some p /\
    Qle_bool (ST_Distance p (point_4326 (Geo.lon g) (Geo.lat g)))
             (Request.radiusMiles r * 1609.34)%Q = true /\
    distance_miles ST_Distance (Request.geoLocation r) row
    = Some (Some (ST_Distance p (point_4326 (Geo.lon g) (Geo.lat g))
                  / 1609.34)%Q).
Proof.
  intros Hgeo Hkeeps.
  destruct (kept_within r g row Hgeo Hkeeps) as (p & Hp & Hle).
  exists p. split; [exact Hp|]. split; [exact Hle|].
  rewrite Hgeo. unfold distance_miles. rewrite Hp. reflexivity.
Qed.

(** X10. For a row the WHERE clause keeps under a geographic filter, the
    result mapping never yields NaN: [distanceMiles] is the number the
    query computed when [venue_lat] and [venue_lon] are both truthy, and
    [undefined] otherwise; so a venue whose latitude or longitude is 0 is
    reported without a distance although the query computed one. *)
Theorem distanceMiles_number_or_undefined (r : Request.t) (g : Geo.t)
    (row : Joined.t) (venue_lat venue_lon : option Q) :
  Request.geoLocation r = Some g ->
  keeps english ST_Distance r row = true ->
  exists d : Q,
    distance_miles ST_Distance (Request.geoLocation r) row = Some (Some d) /\
    distanceMiles (Request.geoLocation r) venue_lat venue_lon
                  (distance_miles ST_Distance (Request.geoLocation r) row)
    = if Node.truthy_number venue_lat && Node.truthy_number venue_lon
      then Some (Node.num d) else None.
Proof.
  intros Hgeo Hkeeps.
  destruct (kept_within r g row Hgeo Hkeeps) as (p & Hp & _).
  rewrite Hgeo. unfold distance_miles, distanceMiles. rewrite Hp. simpl.
  eexists. split; [reflexivity|].
  destruct (Node.truthy_number venue_lat), (Node.truthy_number venue_lon);
    reflexivity.
Qed.

Lemma value_le_miles (a b : option geography) (c : geography) :
  value_le (Sql.strict2 ST_Distance a (Some c))
           (Sql.strict2 ST_Distance b (Some c)) = true ->
  value_le (Sql.strict2 (fun l c => (ST_Distance l c / 1609.34)%Q) a (Some c))
           (Sql.strict2 (fun l c => (ST_Distance l c / 1609.34)%Q) b (Some c))
  = true.
Proof.
  destruct a as [a|], b as [b|]; simpl; try (intros; congruence).
  intros H. apply Qle_bool_iff in H. apply Qle_bool_iff.
  unfold Qdiv. apply Qmult_le_compat_r; [exact H|]. discriminate.
Qed.

(** X11. With [sort] "distance" and a [geoLocation], the search returns
    its rows in ascending order of the [distance_miles] they are reported
    with. *)
Theorem distance_sort_ascending (r : Request.t) (g : Geo.t)
    (rows : list Joined.t) :
  Request.sort r = "distance" ->
  Request.geoLocation r = Some g ->
  Sorted (fun x y =>
            value_le (reported_distance ST_Distance r x)
                     (reported_distance ST_Distance r y) = true)
         (search english ST_Distance r rows).
Proof.
  intros Hsort Hgeo. unfold search, reported_distance, distance_miles.
  rewrite Hsort, Hgeo.
  replace (orderBy "distance" (Some g) (Request.q r))
    with [(ST_Distance_from (point_4326 (Geo.lon g) (Geo.lat g)), ASC)]
    by reflexivity.
  eapply Sorted_ind with (P := fun l => Sorted _ l);
    [constructor | | apply ORDER_BY_sorts].
  intros a l _ IH Hhd. constructor; [exact IH|].
  destruct Hhd as [|b l Hab]; constructor.
  simpl in Hab. apply value_le_miles.
  destruct (value_le (Sql.strict2 ST_Distance (Joined.v_location a) _)
                     (Sql.strict2 ST_Distance (Joined.v_location b) _));
    [reflexivity|discriminate].
Qed.

Lemma without_location_check_optional (present : bool) (c : conjunct) :
  c <> location_is_not_null ->
  without_location_check (optional present c) = optional present c.
Proof.
  intros Hc. destruct present; [|reflexivity].
  destruct c; try reflexivity. congruence.
Qed.

(** X12. The clause keeps the same rows without [v.location IS NOT NULL]:
    [ST_DWithin] is NULL, not TRUE, on a NULL location, so the filter the
    guide's "Finding Nearby Items" query writes and the one the snippet
    appends select alike. *)
Theorem location_check_redundant (r : Request.t) (row : Joined.t) :
  Sql.holds (condition english ST_Distance r (queryParams (where_clause r))
               (without_location_check (sqlQuery (where_clause r))) row)
  = keeps english ST_Distance r row.
Proof.
  unfold keeps. rewrite !condition_holds, where_clause_sqlQuery.
  unfold without_location_check. rewrite !List.filter_app, !forallb_app.
  fold without_location_check.
  unfold date_conjuncts, text_conjuncts, price_conjuncts.
  rewrite !List.filter_app.
  fold without_location_check.
  rewrite !without_location_check_optional by discriminate.
  f_equal. f_equal.
  unfold geographic_conjuncts. destruct (Request.geoLocation r); [|reflexivity].
  simpl. destruct (Joined.v_location row); reflexivity.
Qed.

End DistanceProperties.

Lemma title_hit_kept :
  keeps Sample.english Sample.ST_Distance Tables.nearest_first Rows.title_hit
  = true.
Proof. vm_compute. reflexivity. Qed.

Lemma distance_miles_of_kept_row_witness :
  exists p : geography,
    Joined.v_location Rows.title_hit = Some p /\
    Qle_bool (Sample.ST_Distance p (point_4326 (-86.15) 39.77))
             (Request.radiusMiles Tables.nearest_first * 1609.34)%Q = true /\
    distance_miles Sample.ST_Distance
                   (Request.geoLocation Tables.nearest_first) Rows.title_hit
    = Some (Some (Sample.ST_Distance p (point_4326 (-86.15) 39.77)
                  / 1609.34)%Q).
Proof.
  apply (distance_miles_of_kept_row Sample.english Sample.ST_Distance
           Tables.nearest_first (Geo.Make 39.77%Q (-86.15)%Q) Rows.title_hit).
  - reflexivity.
  - exact title_hit_kept.
Defined.

Lemma distanceMiles_number_or_undefined_witness :
  exists d : Q,
    distance_miles Sample.ST_Distance
                   (Request.geoLocation Tables.nearest_first) Rows.title_hit
    = Some (Some d) /\
    distanceMiles (Request.geoLocation Tables.nearest_first)
                  (Some 0%Q) (Some (-86.1581)%Q)
                  (distance_miles Sample.ST_Distance
                     (Request.geoLocation Tables.nearest_first) Rows.title_hit)
    = None.
Proof.
  apply (distanceMiles_number_or_undefined Sample.english Sample.ST_Distance
           Tables.nearest_first (Geo.Make 39.77%Q (-86.15)%Q) Rows.title_hit
           (Some 0%Q) (Some (-86.1581)%Q)).
  - reflexivity.
  - exact title_hit_kept.
Defined.

Lemma distance_sort_ascending_witness :
  Sorted (fun x y =>
            value_le (reported_distance Sample.ST_Distance
                        Tables.nearest_first x)
                     (reported_distance Sample.ST_Distance
                        Tables.nearest_first y) = true)
         (search Sample.english Sample.ST_Distance Tables.nearest_first
                 [Rows.title_hit; Rows.venue_b_hit; Rows.description_hit]).
Proof.
  apply (distance_sort_ascending Sample.english Sample.ST_Distance
           Tables.nearest_first (Geo.Make 39.77%Q (-86.15)%Q)).
  - reflexivity.
  - reflexivity.
Defined.

(* ===================================================================== *)
(** * Venues without a location *)
(* ===================================================================== *)

Lemma with_venues_id (db : database) (f : list Venue.row -> list Venue.row) :
  f (wc_venues db) = wc_venues db -> with_venues f db = db.
Proof. destruct db. unfold with_venues. simpl. intros ->. reflexivity. Qed.

Lemma map_unchanged {R : Type} (f : R -> R) (l : list R) :
  Forall (fun r => f r = r) l -> map f l = l.
Proof.
  induction 1 as [|r l Hr _ IH]; simpl; [|rewrite Hr, IH]; reflexivity.
Qed.

(** X13. After the guide's fix for NULL locations, its finder still counts
    every venue that has no location and exactly one of the two
    coordinates: the finder looks for [lat] OR [lon], the fix needs both. *)
Theorem fix_leaves_one_coordinate_venues (db : database) :
  has_column db "public.wc_venues" "location" = true ->
  missing_location (step db fix_missing_locations)
  = Returns (length (List.filter
                       (fun v => Sql.IS_NULL (Venue.location v)
                                 && one_coordinate v)
                       (wc_venues db))).
Proof.
  intros Hc. unfold fix_missing_locations.
  rewrite step_UPDATE_wc_venues by exact Hc.
  unfold missing_location, FROM, has_column. fields.
  fold (has_column db "public.wc_venues" "location"). rewrite Hc. simpl.
  f_equal. unfold COUNT_all.
  induction (wc_venues db) as [|v vs IH]; simpl; [reflexivity|].
  destruct v as [i n [la|] [lo|] [l|] sv rs]; simpl; rewrite IH; reflexivity.
Qed.

Lemma fix_leaves_one_coordinate_venues_witness :
  missing_location (step Tables.maintained_venues fix_missing_locations)
  = Returns 1%nat.
Proof.
  apply (fix_leaves_one_coordinate_venues Tables.maintained_venues).
  vm_compute. reflexivity.
Defined.

Section FixProperties.

Variable english : ts_config.

(** X14. On a table whose every row the location trigger kept, the fix
    changes nothing, and the finder counts exactly the venues with one
    coordinate. *)
Theorem fix_changes_no_maintained_venue (db : database) :
  has_column db "public.wc_venues" "location" = true ->
  Forall (maintained english) (wc_venues db) ->
  step db fix_missing_locations = db /\
  missing_location db
  = Returns (length (List.filter one_coordinate (wc_venues db))).
Proof.
  intros Hc Hm. split.
  - unfold fix_missing_locations. rewrite step_UPDATE_wc_venues by exact Hc.
    apply with_venues_id, map_unchanged.
    eapply List.Forall_impl; [|exact Hm]. intros v Hv. simpl in *.
    rewrite (maintained_location english v Hv). unfold derived_location.
    destruct (Venue.lat v), (Venue.lon v); reflexivity.
  - unfold missing_location, FROM. rewrite Hc. simpl. f_equal.
    unfold COUNT_all. induction Hm as [|v vs Hv _ IH]; simpl; [reflexivity|].
    rewrite (maintained_location english v Hv).
    unfold derived_location, one_coordinate.
    destruct (Venue.lat v), (Venue.lon v); simpl; rewrite IH; reflexivity.
Qed.

End FixProperties.

Lemma venue_a_maintained : maintained Sample.english Rows.venue_a_stored.
Proof.
  eapply maintained_insert with (NEW := Rows.venue_a). reflexivity.
Defined.

Lemma venue_b_kept : maintained Sample.english Rows.venue_b_stored.
Proof.
  eapply maintained_insert with (NEW := Rows.venue_b). reflexivity.
Defined.

Lemma fix_changes_no_maintained_venue_witness :
  step Tables.maintained_venues fix_missing_locations
  = Tables.maintained_venues /\
  missing_location Tables.maintained_venues
  = Returns (length (List.filter one_coordinate
                       (wc_venues Tables.maintained_venues))).
Proof.
  apply (fix_changes_no_maintained_venue Sample.english
           Tables.maintained_venues).
  - vm_compute. reflexivity.
  - repeat constructor; [exact venue_a_maintained | exact venue_b_kept].
Defined.

(* ===================================================================== *)
(** * The verification queries *)
(* ===================================================================== *)


Lemma bigint_nonzero (n : nat) : Qeq_bool (bigint (S n)) 0 = false.
Proof. reflexivity. Qed.



Section VerificationProperties.

Variable english : ts_config.




End VerificationProperties.

(** X16. Run after a PostGIS migration that added the [location] column,
    its first verification query reports every venue as [total_venues] and
    the venues that have both coordinates as [venues_with_location]; on an
    empty table it fails with a division by zero. *)
Theorem venues_with_location_reported (db : database) :
  has_column db "public.wc_venues" "location" = false ->
  match wc_venues db with
  | [] =>
      check_venues_with_location (run postgis_migration db)
      = Fails division_by_zero
  | _ :: _ =>
      exists p : Q,
        check_venues_with_location (run postgis_migration db)
        = Returns (Populated.Row "wc_venues" (length (wc_venues db))
                     (COUNT derived_location (wc_venues db)) p)
  end.
Proof.
  intros Hnew. rewrite run_postgis_migration.
  unfold check_venues_with_location, FROM.
  replace (has_column (postgis_migration_leaves db)
             "public.wc_venues" "location") with true
    by (symmetry; apply bool_decide_eq_true; simpl; set_solver).
  unfold postgis_migration_leaves. fields. rewrite Hnew. simpl mbind.
  rewrite List.map_map. unfold populated, COUNT_all. rewrite length_map.
  assert (COUNT Venue.location
            (map (fun x => backfilled_location (Venue.with_location None x))
                 (wc_venues db))
          = COUNT derived_location (wc_venues db)) as ->.
  { unfold COUNT. induction (wc_venues db) as [|v vs IH]; simpl; [reflexivity|].
    destruct v as [i n [la|] [lo|] l sv rs]; simpl; rewrite IH; reflexivity. }
  destruct (wc_venues db) as [|v vs]; [reflexivity|].
  simpl length. unfold numeric_div. rewrite bigint_nonzero.
  eexists. reflexivity.
Qed.

Lemma venues_with_location_reported_witness :
  exists p : Q,
    check_venues_with_location (run postgis_migration Rows.before_migrations)
    = Returns (Populated.Row "wc_venues" 2 1 p).
Proof.
  apply (venues_with_location_reported Rows.before_migrations).
  vm_compute. reflexivity.
Defined.

(* ===================================================================== *)
(** * The test queries *)
(* ===================================================================== *)

Lemma value_le_trans (a b c : option Q) :
  value_le a b = true -> value_le b c = true -> value_le a c = true.
Proof.
  destruct a as [x|], b as [y|], c as [z|]; simpl; try discriminate;
    try reflexivity.
  intros Hxy Hyz. apply Qle_bool_iff in Hxy, Hyz. apply Qle_bool_iff.
  eapply Qle_trans; eassumption.
Qed.

Lemma value_le_either (a b : option Q) :
  value_le a b = true \/ value_le b a = true.
Proof.
  destruct (value_le a b) eqn:H; [left; reflexivity|].
  right. apply value_le_total. exact H.
Qed.

#[local] Instance ascending_total {R : Type} (key : R -> option Q) :
  Total (ascending key).
Proof. intros a b. apply value_le_either. Qed.

#[local] Instance ascending_trans {R : Type} (key : R -> option Q) :
  Transitive (ascending key).
Proof. intros a b c. apply value_le_trans. Qed.

#[local] Instance descending_total {R : Type} (key : R -> option Q) :
  Total (descending key).
Proof. intros a b. apply value_le_either. Qed.

#[local] Instance descending_trans {R : Type} (key : R -> option Q) :
  Transitive (descending key).
Proof. intros a b c Hab Hbc. exact (value_le_trans _ _ _ Hbc Hab). Qed.

(** The first [n] rows of a sorted table are sorted, and no row left out
    may stand before one of them. *)
Lemma LIMIT_merge_sort {R : Type} (le : relation R)
    `{!forall x y, Decision (le x y)} `{!Transitive le} `{!Total le}
    (n : nat) (rows : list R) :
  let result := LIMIT n (merge_sort le rows) in
  (length result <= n)%nat /\
  StronglySorted le result /\
  exists rest : list R,
    Permutation rows (result ++ rest) /\
    (forall x y, In x result -> In y rest -> le x y) /\
    ((length result < n)%nat -> rest = []).
Proof.
  intros result. subst result. unfold LIMIT.
  pose proof (StronglySorted_merge_sort le rows) as Hsorted.
  pose proof (merge_sort_Permutation le rows) as Hperm.
  rewrite <- (take_drop n (merge_sort le rows)) in Hsorted, Hperm.
  split; [rewrite length_take; lia|].
  split; [eapply StronglySorted_app_1_l; exact Hsorted|].
  exists (drop n (merge_sort le rows)). split; [symmetry; exact Hperm|]. split.
  - intros x y Hx Hy.
    eapply StronglySorted_app_1_elem_of; [exact Hsorted| |];
      apply list_elem_of_In; assumption.
  - rewrite length_take. intros Hlt. apply drop_ge. lia.
Qed.

Section TestQueryProperties.

Variable english : ts_config.
Variable ST_Distance : geography -> geography -> Q.
Variable ts_rank : tsvector -> tsquery -> Q.

(** X17. The test distance query returns at most [limit] rows, in
    ascending order of [distance_miles]; each has a distance, of at most
    40234 metres; they are venues with a location within that radius of the
    centre, and no such venue left out is nearer than one returned; fewer
    than [limit] rows are returned only when no such venue is left out. *)
Theorem test_distance_query_nearest (limit : nat) (venues : list Venue.row) :
  let found :=
    map (nearby ST_Distance)
        (List.filter (fun v => Sql.holds (within_25_miles ST_Distance v))
                     venues) in
  let result := test_distance_query ST_Distance limit venues in
  (length result <= limit)%nat /\
  StronglySorted (ascending Nearby.distance_miles) result /\
  Forall (fun row => exists d : Q, Nearby.distance_miles row = Some d /\
                                   (d * 1609.34 <= 40234)%Q) result /\
  exists rest : list Nearby.row,
    Permutation found (result ++ rest) /\
    (forall x y, In x result -> In y rest ->
                 ascending Nearby.distance_miles x y) /\
    ((length result < limit)%nat -> rest = []).
Proof.
  intros found result.
  destruct (LIMIT_merge_sort (ascending Nearby.distance_miles) limit found)
    as (Hlen & Hsorted & rest & Hperm & Hrest & Hall).
  fold result in Hlen, Hsorted, Hperm, Hrest, Hall.
  repeat split; try assumption.
  - apply List.Forall_forall. intros row Hin.
    assert (In row found) as Hfound.
    { eapply Permutation_in; [symmetry; exact Hperm|].
      apply in_or_app. left. exact Hin. }
    subst found. apply in_map_iff in Hfound as (v & <- & Hv).
    apply filter_In in Hv as [_ Hv]. unfold within_25_miles in Hv.
    unfold nearby. simpl.
    destruct (Venue.location v) as [l|]; [|discriminate]. simpl in Hv.
    eexists. split; [reflexivity|].
    destruct (Qle_bool (ST_Distance l indianapolis) 40234) eqn:Hle;
      [|discriminate].
    apply Qle_bool_iff in Hle.
    rewrite Qmult_comm, Qmult_div_r; [exact Hle|discriminate].
  - exists rest. repeat split; assumption.
Qed.

(** X18. The test full-text query returns at most 10 rows, in descending
    order of [rank]; they are events whose search vector matches
    'concerts', each with a rank, and no such event left out ranks higher
    than one returned. *)
Theorem test_full_text_search_best (events : list Event.row) :
  let found :=
    map (ranked english ts_rank)
        (List.filter
           (fun e => Sql.holds (matches english (Event.search_vector e)
                                        (Some "concerts")))
           events) in
  let result := test_full_text_search english ts_rank events in
  (length result <= 10)%nat /\
  StronglySorted (descending Ranked.rank) result /\
  Forall (fun row => Sql.IS_NOT_NULL (Ranked.rank row) = true) result /\
  exists rest : list Ranked.row,
    Permutation found (result ++ rest) /\
    (forall x y, In x result -> In y rest -> descending Ranked.rank x y) /\
    ((length result < 10)%nat -> rest = []).
Proof.
  intros found result.
  destruct (LIMIT_merge_sort (descending Ranked.rank) 10 found)
    as (Hlen & Hsorted & rest & Hperm & Hrest & Hall).
  fold result in Hlen, Hsorted, Hperm, Hrest, Hall.
  repeat split; try assumption.
  - apply List.Forall_forall. intros row Hin.
    assert (In row found) as Hfound.
    { eapply Permutation_in; [symmetry; exact Hperm|].
      apply in_or_app. left. exact Hin. }
    subst found. apply in_map_iff in Hfound as (e & <- & He).
    apply filter_In in He as [_ He]. unfold matches in He.
    unfold ranked. simpl.
    destruct (Event.search_vector e); [reflexivity|discriminate].
  - exists rest. repeat split; assumption.
Qed.

End TestQueryProperties.

(* ===================================================================== *)
(** * The migrations together *)
(* ===================================================================== *)

Lemma lookup_create_if_absent {K V : Type} `{Countable K}
    (k j : K) (v : V) (m : gmap K V) :
  create_if_absent k v m !! j
  = match m !! j with
    | Some x => Some x
    | None => if decide (k = j) then Some v else None
    end.
Proof.
  unfold create_if_absent. destruct (m !! k) eqn:Ek.
  - destruct (m !! j) eqn:Ej; [reflexivity|].
    case_decide; [congruence|reflexivity].
  - destruct (decide (k = j)) as [->|Hne].
    + rewrite lookup_insert_eq, Ek. reflexivity.
    + rewrite lookup_insert_ne by exact Hne. destruct (m !! j); reflexivity.
Qed.

(** Equal maps of indexes created unless present. *)
Ltac absent_maps :=
  apply map_eq; intros j; rewrite !lookup_create_if_absent;
  match goal with
  | |- context [indexes ?db !! j] => destruct (indexes db !! j)
  end;
  [reflexivity|]; repeat case_decide; simplify_eq; reflexivity.

Lemma has_column_text_search_leaves (english : ts_config) (db : database) :
  has_column (text_search_migration_leaves english db)
             "public.wc_venues" "location"
  = has_column db "public.wc_venues" "location".
Proof. unfold has_column. apply bool_decide_ext. simpl. set_solver. Qed.

Lemma has_column_postgis_leaves (db : database) (table : string) :
  has_column (postgis_migration_leaves db) table "search_vector"
  = has_column db table "search_vector".
Proof. unfold has_column. apply bool_decide_ext. simpl. set_solver. Qed.

Lemma wc_venues_postgis_leaves (db : database) :
  wc_venues (postgis_migration_leaves db)
  = map backfilled_location
      ((if has_column db "public.wc_venues" "location" then id
        else map (Venue.with_location None)) (wc_venues db)).
Proof.
  unfold postgis_migration_leaves. fields.
  destruct (has_column db "public.wc_venues" "location"); reflexivity.
Qed.


Section Order.

Variable english : ts_config.

Lemma wc_venues_text_search_leaves (db : database) :
  wc_venues (text_search_migration_leaves english db)
  = map (backfilled_venue_vector english)
      ((if has_column db "public.wc_venues" "search_vector" then id
        else map (Venue.with_search_vector None)) (wc_venues db)).
Proof.
  unfold text_search_migration_leaves. fields.
  destruct (has_column db "public.wc_venues" "search_vector"); reflexivity.
Qed.

(** The two migrations that write [wc_venues] write different columns. *)
Lemma venue_backfills_commute (has_location has_vector : bool)
    (venues : list Venue.row) :
  map backfilled_location
      ((if has_location then id else map (Venue.with_location None))
         (map (backfilled_venue_vector english)
            ((if has_vector then id else map (Venue.with_search_vector None))
               venues)))
  = map (backfilled_venue_vector english)
      ((if has_vector then id else map (Venue.with_search_vector None))
         (map backfilled_location
            ((if has_location then id else map (Venue.with_location None))
               venues))).
Proof.
  destruct has_location, has_vector; unfold id; rewrite !List.map_map;
    apply List.map_ext; intros [i n [la|] [lo|] [l|] [sv|] rs]; reflexivity.
Qed.

(** X19. Sent statement by statement, the three migrations can be run in
    any order: each two of them leave the same database whichever runs
    first. Sent as one query each, the index migration and the text-search
    migration leave the same database in either order whenever both commit
    in both orders. *)
Theorem migrations_commute (db : database) :
  (run postgis_migration (run index_migration db)
   = run index_migration (run postgis_migration db) /\
   run (text_search_migration english) (run index_migration db)
   = run index_migration (run (text_search_migration english) db) /\
   run (text_search_migration english) (run postgis_migration db)
   = run postgis_migration (run (text_search_migration english) db)) /\
  (forall d1 d12 d2 d21 : database,
     run_as_one_query index_migration db = Ok d1 ->
     run_as_one_query (text_search_migration english) d1 = Ok d12 ->
     run_as_one_query (text_search_migration english) db = Ok d2 ->
     run_as_one_query index_migration d2 = Ok d21 ->
     d12 = d21).
Proof.
  assert (Hrun :
    run postgis_migration (run index_migration db)
    = run index_migration (run postgis_migration db) /\
    run (text_search_migration english) (run index_migration db)
    = run index_migration (run (text_search_migration english) db) /\
    run (text_search_migration english) (run postgis_migration db)
    = run postgis_migration (run (text_search_migration english) db)).
  { rewrite !run_postgis_migration, !run_index_migration,
      !run_text_search_migration.
    split; [|split].
    - apply database_eq; unfold postgis_migration_leaves at 1,
        index_migration_leaves at 1; fields; try reflexivity.
      + simpl. maps.
      + simpl. absent_maps.
    - apply database_eq; unfold text_search_migration_leaves at 1,
        index_migration_leaves at 1; fields; try reflexivity.
      + simpl. maps.
      + simpl. absent_maps.
    - apply database_eq.
      + simpl. apply set_eq. intros x. rewrite !elem_of_union. tauto.
      + simpl. apply set_eq. intros x. rewrite !elem_of_union. tauto.
      + simpl. maps.
      + simpl. absent_maps.
      + simpl. maps.
      + simpl. maps.
      + unfold text_search_migration_leaves at 1. fields.
        rewrite has_column_postgis_leaves. reflexivity.
      + rewrite wc_venues_text_search_leaves, !wc_venues_postgis_leaves,
          wc_venues_text_search_leaves.
        rewrite has_column_postgis_leaves, has_column_text_search_leaves.
        symmetry. apply venue_backfills_commute. }
  split; [exact Hrun|].
  intros d1 d12 d2 d21 H1 H12 H2 H21.
  apply committed_run in H1, H12, H2, H21. subst d1 d12 d2 d21.
  apply Hrun.
Qed.


End Order.

(** On the database of the scenario after the other two migrations, the
    index migration and the text-search migration go through as one query
    each, in both orders. *)
Example index_and_text_search_commit :
  exists d1 d12 d2 d21 : database,
    run_as_one_query index_migration Tables.migrated = Ok d1 /\
    run_as_one_query (text_search_migration Sample.english) d1 = Ok d12 /\
    run_as_one_query (text_search_migration Sample.english) Tables.migrated
    = Ok d2 /\
    run_as_one_query index_migration d2 = Ok d21.
Proof.
  exists (run index_migration Tables.migrated),
    (run (text_search_migration Sample.english)
         (run index_migration Tables.migrated)),
    (run (text_search_migration Sample.english) Tables.migrated),
    (run index_migration
         (run (text_search_migration Sample.english) Tables.migrated)).
  split; [vm_compute; reflexivity|].
  split; [vm_compute; reflexivity|].
  split; vm_compute; reflexivity.
Qed.


(* ===================================================================== *)
(** * The Node.js scripts *)
(* ===================================================================== *)

Lemma normalize_parent (dir : Node.path) (name : string) (rest : list string) :
  String.eqb name ".." = false ->
  (String.eqb name "." || String.eqb name "") = false ->
  Node.normalize (dir ++ name :: ".." :: rest) = Node.normalize (dir ++ rest).
Proof.
  intros Hup Hdot. unfold Node.normalize. f_equal.
  rewrite !fold_left_app. simpl. rewrite Hup, Hdot. reflexivity.
Qed.

(** The schema the scripts name is the one index.js exports. *)
Lemma scripts_schemaPath (dir : Node.path) :
  Node.path_join (dir ++ ["scripts"]) [".."; "prisma"; "schema.prisma"]
  = Node.path_join dir ["prisma"; "schema.prisma"].
Proof.
  unfold Node.path_join. rewrite <- app_assoc. simpl app.
  rewrite normalize_parent by reflexivity. reflexivity.
Qed.

(** X21. The migration helper hands the shell at most one command: the
    [npx prisma migrate] line, and only when the command, [process.argv[2]]
    or "dev" when that is missing or empty, is one of the five valid ones.
    It ends normally when the command is valid and prisma exits with status
    0, and with exit status 1 in every other case; it throws nothing. *)
Theorem migrate_runs_prisma_for_valid_commands (p : Node.process)
    (dir : Node.path) :
  let line :=
    fullCommand p (Node.path_join dir [".."; "prisma"; "schema.prisma"]) in
  Node.executed (migrate p dir)
  = (if Node.includes validCommands (command p) then [line] else []) /\
  snd (migrate p dir)
  = (if Node.includes validCommands (command p) && Node.succeeds p line
     then Node.normal Node.Empty_object else Node.exit 1).
Proof.
  intros line. subst line.
  unfold migrate, Node.succeeds, Node.executed, Node.execSync.
  cbv zeta. destruct (Node.includes validCommands (command p)); simpl.
  - (* a valid command: the try block runs *)
    destruct (Node.shell p _) as [message|]; split; reflexivity.
  - (* an invalid one: process.exit(1) before the try block *)
    split; reflexivity.
Qed.

(** X22. Requiring the package runs both scripts: [npx prisma generate]
    always, then, if that succeeded and the [process.argv[2]] of the
    requiring process (or "dev") is a valid command, the [npx prisma
    migrate] line, both on the schema path that index.js exports. The
    [require] returns only when all of that succeeded, with two empty
    objects as [generateClient] and [runMigration]; otherwise the requiring
    process exits with status 1. *)
Theorem index_runs_both_scripts (p : Node.process) (dir : Node.path) :
  let schemaPath := Node.path_join dir ["prisma"; "schema.prisma"] in
  let generate :=
    "npx prisma generate --schema=" +:+ Node.quote +:+ schemaPath
    +:+ Node.quote in
  let line := fullCommand p schemaPath in
  Node.executed (index_js p dir)
  = generate :: (if Node.succeeds p generate
                    && Node.includes validCommands (command p)
                 then [line] else []) /\
  snd (index_js p dir)
  = (if Node.succeeds p generate && Node.includes validCommands (command p)
        && Node.succeeds p line
     then Node.normal (Exports.Make schemaPath Node.Empty_object
                                    Node.Empty_object)
     else Node.exit 1).
Proof.
  intros schemaPath generate line. subst schemaPath generate line.
  unfold index_js, client, migrate, Node.succeeds, Node.executed,
    Node.execSync.
  cbv zeta. rewrite scripts_schemaPath.
  set (schemaPath := Node.path_join dir ["prisma"; "schema.prisma"]).
  set (generate := _ +:+ Node.quote +:+ schemaPath +:+ Node.quote).
  destruct (Node.includes validCommands (command p));
    destruct (Node.shell p generate) as [failure|];
    destruct (Node.shell p (fullCommand p schemaPath)) as [message|];
    split; reflexivity.
Qed.

(* ===================================================================== *)
(** * What the text filter finds *)
(* ===================================================================== *)

Lemma has_lexeme_to_tsvector (cfg : ts_config) (doc l : string) (pos : nat) :
  In (l, pos) (parse_document cfg doc) ->
  has_lexeme l (to_tsvector cfg doc) = true.
Proof.
  intros Hin. unfold has_lexeme, to_tsvector. apply existsb_exists.
  exists (Entry l pos Weight.D). split.
  - apply in_map_iff. exists (l, pos). split; [reflexivity|exact Hin].
  - simpl. apply String.eqb_refl.
Qed.

Lemma has_lexeme_setweight (l : string) (v : tsvector) (w : Weight.t) :
  has_lexeme l (setweight v w) = has_lexeme l v.
Proof.
  unfold has_lexeme, setweight.
  induction v as [|e v IH]; simpl; [reflexivity|].
  rewrite IH. reflexivity.
Qed.

Lemma has_lexeme_concat (l : string) (v1 v2 : tsvector) :
  has_lexeme l (tsvector_concat v1 v2) = has_lexeme l v1 || has_lexeme l v2.
Proof.
  unfold has_lexeme, tsvector_concat. rewrite existsb_app. f_equal.
  induction v2 as [|e v2 IH]; simpl; [reflexivity|]. rewrite IH. reflexivity.
Qed.

Section Findable.

Variable english : ts_config.
Variable ST_Distance : geography -> geography -> Q.

(** X23. An event stored by an INSERT, or by an UPDATE that names [title]
    or [description], is found by its words: when the query is one lexeme
    and the text-search configuration finds that lexeme in the title or in
    the description, the text conjunct of the clause is TRUE on every
    joined row of the event. *)
Theorem event_found_by_its_words (op : tg_op) (NEW e : Event.row)
    (r : Request.t) (params : list Q) (query l : string) (pos : nat)
    (row : Joined.t) :
  event_before_row english op NEW = Ok e ->
  fires trigger_update_event_search_vector op = true ->
  In (l, pos) (parse_document english (Sql.COALESCE (Event.title e) "")) \/
  In (l, pos)
     (parse_document english (Sql.COALESCE (Event.description e) "")) ->
  Request.q r = Some query ->
  to_tsquery english query = q_lexeme l ->
  Joined.e row = e ->
  eval english ST_Distance r params search_vectors_match row = Sql.TRUE.
Proof.
  intros Hstored Hfires Hword Hq Hquery Hrow.
  apply event_before_row_vector in Hstored as (Ht & Hd & Hsv).
  rewrite Hfires in Hsv. rewrite Ht, Hd in Hword.
  simpl. rewrite Hrow, Hsv, Hq. unfold derived_event_vector, matches. simpl.
  rewrite Hquery. simpl. unfold event_search_vector.
  rewrite has_lexeme_concat, !has_lexeme_setweight.
  destruct Hword as [Hword | Hword];
    rewrite (has_lexeme_to_tsvector _ _ _ _ Hword), ?orb_true_r; reflexivity.
Qed.

(** X24. An event is also found by a word of the name of its venue, when
    the venue was stored by an INSERT or by an UPDATE that names [name]:
    the text conjunct is TRUE on the joined row whatever the event's own
    vector holds, NULL included. *)
Theorem event_found_by_venue_name (op : tg_op) (NEW v : Venue.row)
    (r : Request.t) (params : list Q) (query l : string) (pos : nat)
    (row : Joined.t) :
  venue_before_row english op NEW = Ok v ->
  fires trigger_update_venue_search_vector op = true ->
  In (l, pos) (parse_document english (Sql.COALESCE (Venue.name v) "")) ->
  Request.q r = Some query ->
  to_tsquery english query = q_lexeme l ->
  Joined.v row = Some v ->
  eval english ST_Distance r params search_vectors_match row = Sql.TRUE.
Proof.
  intros Hstored Hfires Hword Hq Hquery Hrow.
  rewrite venue_before_row_eq in Hstored. injection Hstored as <-.
  unfold venue_after_triggers in *. rewrite Hfires in *.
  simpl in Hword. simpl. unfold Joined.v_search_vector. rewrite Hrow, Hq.
  replace (matches english (Venue.search_vector _) (Some query))
    with Sql.TRUE.
  - destruct (matches english (Event.search_vector (Joined.e row))
                      (Some query)) as [[]|]; reflexivity.
  - unfold matches. simpl. rewrite Hquery. simpl.
    unfold venue_search_vector.
    rewrite (has_lexeme_to_tsvector _ _ _ _ Hword). reflexivity.
Qed.

End Findable.

Lemma event_found_by_its_words_witness :
  eval Sample.english Sample.ST_Distance (Rows.concert "date") []
       search_vectors_match Rows.title_hit
  = Sql.TRUE.
Proof.
  apply (event_found_by_its_words Sample.english Sample.ST_Distance INSERT
           Rows.concert_night Rows.concert_night_stored (Rows.concert "date")
           [] "concert" "concert" 1%nat Rows.title_hit).
  - reflexivity.
  - reflexivity.
  - left. vm_compute. left. reflexivity.
  - reflexivity.
  - reflexivity.
  - reflexivity.
Defined.

Lemma event_found_by_venue_name_witness :
  eval Sample.english Sample.ST_Distance Tables.stadium []
       search_vectors_match Rows.title_hit
  = Sql.TRUE.
Proof.
  apply (event_found_by_venue_name Sample.english Sample.ST_Distance INSERT
           Rows.venue_a Rows.venue_a_stored Tables.stadium
           [] "stadium" "stadium" 3%nat Rows.title_hit).
  - reflexivity.
  - reflexivity.
  - vm_compute. right. right. left. reflexivity.
  - reflexivity.
  - reflexivity.
  - reflexivity.
Defined.

(* ===================================================================== *)
(** * The partial index on start times *)
(* ===================================================================== *)

Section Indexed.

Variable english : ts_config.
Variable ST_Distance : geography -> geography -> Q.

(** X25. Every row a search with a date bound keeps is in the partial
    index on [start_at]: the index leaves out the events without a start
    time, and a comparison with [$date_min] or [$date_max] is never TRUE on
    those. *)
Theorem date_filter_keeps_indexed_rows (r : Request.t) (row : Joined.t) :
  Sql.IS_NOT_NULL (Request.date_min r) || Sql.IS_NOT_NULL (Request.date_max r)
  = true ->
  keeps english ST_Distance r row = true ->
  in_idx_wc_events_start_at (Joined.e row) = true.
Proof.
  intros Hdate Hkeeps. rewrite keeps_split in Hkeeps.
  apply andb_prop in Hkeeps as [Hkeeps _].
  apply andb_prop in Hkeeps as [Hkeeps _].
  apply andb_prop in Hkeeps as [Hkeeps _].
  unfold all_hold, date_conjuncts, in_idx_wc_events_start_at in *.
  revert Hdate Hkeeps.
  destruct (Request.date_min r) as [lo|], (Request.date_max r) as [hi|];
    simpl; try discriminate;
    destruct (Event.start_at (Joined.e row)) as [t|];
    simpl; intros; try reflexivity; discriminate.
Qed.

End Indexed.

Lemma date_filter_keeps_indexed_rows_witness :
  in_idx_wc_events_start_at (Joined.e Rows.title_hit) = true.
Proof.
  apply (date_filter_keeps_indexed_rows Sample.english Sample.ST_Distance
           Tables.in_range_of_dates Rows.title_hit).
  - reflexivity.
  - vm_compute. reflexivity.
Defined.
